(** * Device Farm automation script: a shallow embedding

    This development models [integrationtest/devicefarm/automate_device_farm.py]
    and proves properties of its four procedures:
    [upload_df_file], [upload_and_test_android], [download_artifacts] and
    [unzip_and_copy].

    Conventions of the embedding.
    - A Python [str] is a list of Unicode code points ([text]); string
      literals of the script are written [txt "..."].
    - The local file system is a finite map from path texts to file contents;
      directories are implicit, and two paths name the same file exactly when
      they are the same text (no symbolic links, no [..] aliasing).
    - The remote service, the HTTP transport and the clock are an explicit
      environment ([remote]); every request the script makes is appended to
      an event log, so that "was this request issued" is a statement about
      the log.
    - Python control flow (normal return, raised exception, [exit], and an
      unbounded [while True]) is the four-way [result] type; the loops take
      a fuel argument and answer [Spin] when the fuel is used up. *)

From Stdlib Require Import String Ascii NArith ZArith Lia.
From stdpp Require Import base option list gmap.

(** ** Text *)

Abbreviation text := (list N).

Definition txt (s : string) : text :=
  map N_of_ascii (list_ascii_of_string s).
Arguments txt s%_string : simpl never.

Definition SEP : N := 47.        (* slash *)
Definition BACKSLASH : N := 92.  (* backslash *)
Definition DQUOTE : N := 34.     (* double quote *)

(** [s.startswith(p)] and [s.endswith(p)] *)
Definition startswith (s p : text) : bool := bool_decide (p `prefix_of` s).
Definition endswith (s p : text) : bool := bool_decide (p `suffix_of` s).

(** [needle in hay] ([str.__contains__]): a contiguous occurrence. *)
Fixpoint contains (hay needle : text) : bool :=
  startswith hay needle ||
  match hay with
  | [] => false
  | _ :: hay' => contains hay' needle
  end.

(** ** posixpath *)

Module posixpath.

(** [p[:i], p[i:]] for [i = p.rfind('/') + 1]. The first component is empty
    exactly when [p] has no separator. *)
Fixpoint rsplit (p : text) : text * text :=
  match p with
  | [] => ([], [])
  | c :: q =>
      let '(h, t) := rsplit q in
      match h with
      | _ :: _ => (c :: h, t)
      | [] => if N.eqb c SEP then ([c], t) else ([], c :: t)
      end
  end.

(** [head.rstrip('/')] *)
Fixpoint rstrip_sep (h : text) : text :=
  match h with
  | [] => []
  | c :: q =>
      match rstrip_sep q with
      | [] => if N.eqb c SEP then [] else [c]
      | r => c :: r
      end
  end.

Definition all_sep (h : text) : bool := forallb (N.eqb SEP) h.

(** [os.path.dirname]: the head, with trailing separators stripped unless
    the head consists of separators only. *)
Definition dirname (p : text) : text :=
  let h := (rsplit p).1 in
  if all_sep h then h else rstrip_sep h.

(** [os.path.basename] *)
Definition basename (p : text) : text := (rsplit p).2.

(** [os.path.join(a, b)] *)
Definition join (a b : text) : text :=
  if startswith b [SEP] then b
  else if bool_decide (a = []) || endswith a [SEP] then a ++ b
  else a ++ SEP :: b.

End posixpath.

(** ** The fragment of [re] used by the script *)

(** What the script takes from the Python runtime without the source fixing
    it: which non-ASCII code points are alphanumeric (the Unicode database
    behind [\w]), which of them may start and which may continue an
    identifier (the database behind [str.isidentifier]), and the text
    [yaml.dump] produces for a list of strings. *)
Class PythonRuntime := {
  unicode_alnum : N → bool;
  unicode_xid_start : N → bool;
  unicode_xid_continue : N → bool;
  yaml_dump : list text → text
}.

(** The exceptions that occur. [KeyboardInterrupt] stands for the classes
    that derive from [BaseException] directly; all the others derive from
    [Exception]. [ReError] is [re.error]; [IndexError] carries the group
    name a replacement template asked for. *)
Inductive exn :=
  | PyException (msg : text)
  | KeyError (key : text)
  | FileNotFoundError (path : text)
  | BadZipFile (path : text)
  | UnicodeDecodeError (path : text)
  | ReError
  | IndexError (name : text)
  | ClientError (msg : text)
  | KeyboardInterrupt.

Definition is_Exception (e : exn) : bool :=
  match e with KeyboardInterrupt => false | _ => true end.

Module re.
Local Open Scope N_scope.

Section Engine.
Context `{PythonRuntime}.

Definition ascii_alnum (c : N) : bool :=
  ((48 <=? c) && (c <=? 57)) || ((65 <=? c) && (c <=? 90))
  || ((97 <=? c) && (c <=? 122)).

(** [\w] for a [str] pattern: alphanumeric or underscore. *)
Definition is_word (c : N) : bool :=
  if c <? 128 then ascii_alnum c || (c =? 95) else unicode_alnum c.

Definition is_word_opt (c : option N) : bool :=
  match c with Some c => is_word c | None => false end.

(** [\b]: the characters on the two sides differ in word-ness; outside
    the string counts as a non-word character. *)
Definition at_boundary (prev next : option N) : bool :=
  negb (eqb (is_word_opt prev) (is_word_opt next)).

Inductive atom := Boundary | Lit (c : N).

(** Match a sequence of atoms at the current position; [prev] is the
    character just before it. Returns the matched text. *)
Fixpoint match_here (p : list atom) (prev : option N) (s : text)
  : option text :=
  match p with
  | [] => Some []
  | Boundary :: p' =>
      if at_boundary prev (head s) then match_here p' prev s else None
  | Lit c :: p' =>
      match s with
      | x :: s' =>
          if N.eqb x c
          then cons x <$> match_here p' (Some x) s'
          else None
      | [] => None
      end
  end.

(** Left-to-right scan of [re.sub]: [skip] counts the characters of the
    current match that are still to be passed over. Only non-empty
    matches are replaced: the pattern of the script consumes characters. *)
Fixpoint scan (p : list atom) (repl : text → text)
    (prev : option N) (skip : nat) (s : text) : text :=
  match s with
  | [] => []
  | c :: s' =>
      match skip with
      | S k => scan p repl (Some c) k s'
      | O =>
          match match_here p prev s with
          | Some (x :: m) => repl (x :: m) ++ scan p repl (Some c) (length m) s'
          | _ => c :: scan p repl (Some c) O s'
          end
      end
  end.
End Engine.

(** *** Replacement templates

    [re.sub] treats a replacement string as a template: without a
    backslash it is literal, otherwise it is parsed ([parse_template],
    here as in CPython 3.12) into literal pieces and group references
    before any matching takes place. The pattern of the script has no
    capture group and no named group, so only group 0 (the whole match)
    can be referenced. A template that cannot be used raises [re.error],
    except for a reference to a group by a well-formed name, which raises
    [IndexError]. *)

Inductive piece := PChar (c : N) | PGroup0.

(** The tokenizer: a backslash and the character after it form one token;
    [TBad] is a backslash with nothing after it. *)
Inductive token := TChar (c : N) | TEsc (c : N) | TBad.

Fixpoint tokenize (s : text) : list token :=
  match s with
  | [] => []
  | c :: s' =>
      if N.eqb c BACKSLASH then
        match s' with
        | [] => [TBad]
        | d :: s'' => TEsc d :: tokenize s''
        end
      else TChar c :: tokenize s'
  end.

Definition is_digit (c : N) : bool := (48 <=? c) && (c <=? 57).
Definition is_octdigit (c : N) : bool := (48 <=? c) && (c <=? 55).
Definition is_ascii_letter (c : N) : bool :=
  ((65 <=? c) && (c <=? 90)) || ((97 <=? c) && (c <=? 122)).
Definition digit_val (c : N) : N := c - 48.

(** The table [ESCAPES] of the template parser. *)
Definition escape_char (c : N) : option N :=
  if c =? 97 then Some 7          (* \a *)
  else if c =? 98 then Some 8     (* \b *)
  else if c =? 102 then Some 12   (* \f *)
  else if c =? 110 then Some 10   (* \n *)
  else if c =? 114 then Some 13   (* \r *)
  else if c =? 116 then Some 9    (* \t *)
  else if c =? 118 then Some 11   (* \v *)
  else if c =? 92 then Some 92    (* \\ *)
  else None.

(** The text between [<] and [>] of a [\g<...>] reference, with what
    follows. Without a closing [>] the reference is rejected; so is, once
    the name ends, a name with a backslash in it, which is neither a
    number nor an identifier. *)
Fixpoint until_gt (ts : list token) : exn + (text * list token) :=
  match ts with
  | TChar c :: ts' =>
      if c =? 62 then inr ([], ts')
      else match until_gt ts' with
           | inr (n, r) => inr (c :: n, r)
           | inl e => inl e
           end
  | _ => inl ReError
  end.

(** The tokenizer reads one token ahead: a trailing backslash is reported
    when the token before it is taken. *)
Definition at_bad_end (ts : list token) : bool :=
  match ts with TBad :: _ => true | _ => false end.

Section Template.
Context `{PythonRuntime}.

(** [name.isidentifier()] *)
Definition xid_start (c : N) : bool :=
  if c <? 128 then is_ascii_letter c || (c =? 95) else unicode_xid_start c.

Definition xid_continue (c : N) : bool :=
  if c <? 128 then is_ascii_letter c || is_digit c || (c =? 95)
  else unicode_xid_continue c.

Definition isidentifier (name : text) : bool :=
  match name with
  | [] => false
  | c :: r => xid_start c && forallb xid_continue r
  end.

(** The group a [\g<name>] reference stands for. A number is a group
    index: the pattern has no groups, so only 0 is in range. Any other
    name must be an identifier, and the pattern has no group of that
    name. *)
Definition group_reference (name : text) : exn + piece :=
  if bool_decide (name = []) then inl ReError
  else if forallb is_digit name then
    if forallb (N.eqb 48) name then inr PGroup0 else inl ReError
  else if isidentifier name then inl (IndexError name)
  else inl ReError.

(** One step of the parser loop on an escape [\c]; [rest] is what
    follows. *)
Definition parse_escape (c : N) (rest : list token)
  : exn + (list piece * list token) :=
  if c =? 103 then                       (* \g<name> *)
    match rest with
    | TChar 60 :: rest' =>
        match until_gt rest' with
        | inl e => inl e
        | inr (name, r) =>
            if at_bad_end r then inl ReError
            else match group_reference name with
                 | inl e => inl e
                 | inr g => inr ([g], r)
                 end
        end
    | _ => inl ReError
    end
  else if c =? 48 then                   (* \0, \0o, \0oo: octal *)
    match rest with
    | TChar d1 :: TChar d2 :: r =>
        if is_octdigit d1 && is_octdigit d2
        then inr ([PChar ((digit_val d1 * 8 + digit_val d2) `mod` 256)], r)
        else if is_octdigit d1
        then inr ([PChar (digit_val d1)], TChar d2 :: r)
        else inr ([PChar 0], rest)
    | TChar d1 :: r =>
        if is_octdigit d1 then inr ([PChar (digit_val d1)], r)
        else inr ([PChar 0], rest)
    | _ => inr ([PChar 0], rest)
    end
  else if is_digit c then                (* \1 .. \99 or three octal digits *)
    match rest with
    | TChar d1 :: TChar d2 :: r =>
        if is_digit d1 && is_octdigit c && is_octdigit d1 && is_octdigit d2
        then
          let v := digit_val c * 64 + digit_val d1 * 8 + digit_val d2 in
          if 255 <? v then inl ReError else inr ([PChar v], r)
        else inl ReError                 (* group 1..99: out of range *)
    | _ => inl ReError                   (* group 1..99: out of range *)
    end
  else
    match escape_char c with
    | Some e => inr ([PChar e], rest)
    | None =>
        if is_ascii_letter c then inl ReError   (* bad escape *)
        else inr ([PChar BACKSLASH; PChar c], rest)
    end.

Fixpoint parse_tokens (fuel : nat) (ts : list token) : exn + list piece :=
  match fuel with
  | O => match ts with [] => inr [] | _ => inl ReError end
  | S fuel' =>
      match ts with
      | [] => inr []
      | TBad :: _ => inl ReError
      | TChar c :: ts' => sum_map id (cons (PChar c)) (parse_tokens fuel' ts')
      | TEsc c :: ts' =>
          match parse_escape c ts' with
          | inl e => inl e
          | inr (ps, r) => sum_map id (app ps) (parse_tokens fuel' r)
          end
      end
  end.

Definition parse_template (repl : text) : exn + list piece :=
  let ts := tokenize repl in parse_tokens (length ts) ts.

Definition expand (ps : list piece) (m : text) : text :=
  concat (map (λ p, match p with PChar c => [c] | PGroup0 => m end) ps).

(** How [re.sub] prepares its replacement argument. *)
Definition compile_repl (repl : text) : exn + (text → text) :=
  if bool_decide (BACKSLASH ∈ repl)
  then sum_map id expand (parse_template repl)
  else inr (λ _, repl).

(** [re.sub(pattern, repl, string)]: the text, or the exception. *)
Definition sub (p : list atom) (repl s : text) : exn + text :=
  sum_map id (λ f, scan p f None O s) (compile_repl repl).
End Template.

End re.

(** ** Outcomes, the world and the command monad *)

(** What a local file holds: decoded text, or a zip archive, which is the
    list of its members (relative name and text) in archive order. *)
Inductive file_data :=
  | Text (t : text)
  | Archive (members : list (text * text)).

(** Requests and waits, in the order the script performs them. *)
Inductive event :=
  | CreateUpload (name type_ : text)
  | HttpPut (url file : text)
  | GetUpload (arn : text)
  | ScheduleRun (name app_arn package_arn : text)
  | GetRun (arn : text)
  | StopRun (arn : text)
  | ListJobs (arn : text)
  | ListSuites (arn : text)
  | ListTests (arn : text)
  | ListArtifacts (type_ arn : text)
  | HttpGet (url path : text)
  | Sleep (seconds : nat).

Record world := World { fs : gmap text file_data; log : list event }.

Inductive result (A : Type) :=
  | Ret (a : A)
  | Raise (e : exn)
  | Exit (code : Z)
  | Spin.
Arguments Ret {A} a.
Arguments Raise {A} e.
Arguments Exit {A} code.
Arguments Spin {A}.

Definition M (A : Type) : Type := world → result A * world.

Definition ret {A} (a : A) : M A := λ w, (Ret a, w).
Definition raise {A} (e : exn) : M A := λ w, (Raise e, w).
Definition exit {A} (code : Z) : M A := λ w, (Exit code, w).
Definition spin {A} : M A := λ w, (Spin, w).

Definition bind {A B} (m : M A) (k : A → M B) : M B :=
  λ w, match m w with
       | (Ret a, w') => k a w'
       | (Raise e, w') => (Raise e, w')
       | (Exit c, w') => (Exit c, w')
       | (Spin, w') => (Spin, w')
       end.

Notation "'do' x <- m ; k" := (bind m (λ x, k))
  (at level 10, x pattern, m at level 99, k at level 200).
Notation "m ;; k" := (bind m (λ _, k))
  (at level 100, k at level 200, right associativity).

(** [try: body except Exception as e: handler(e)] *)
Definition try_except {A} (body : M A) (handler : exn → M A) : M A :=
  λ w, match body w with
       | (Raise e, w') => if is_Exception e then handler e w' else (Raise e, w')
       | r => r
       end.

Definition emit (ev : event) : M () :=
  λ w, (Ret (), World (fs w) (log w ++ [ev])).

Definition get_fs : M (gmap text file_data) := λ w, (Ret (fs w), w).
Definition put_fs (f : gmap text file_data) : M () :=
  λ w, (Ret (), World f (log w)).

(** ** File operations *)

(** [open(path, 'r', encoding='utf-8').read()] *)
Definition read_text (path : text) : M text :=
  do f <- get_fs;
  match f !! path with
  | Some (Text t) => ret t
  | Some (Archive _) => raise (UnicodeDecodeError path)
  | None => raise (FileNotFoundError path)
  end.

(** [open(path, 'w').write(data)] *)
Definition write_file (path : text) (data : file_data) : M () :=
  do f <- get_fs; put_fs (<[path := data]> f).

(** [zipfile.ZipFile(path, 'r')] *)
Definition open_zip (path : text) : M (list (text * text)) :=
  do f <- get_fs;
  match f !! path with
  | Some (Archive ms) => ret ms
  | Some (Text _) => raise (BadZipFile path)
  | None => raise (FileNotFoundError path)
  end.

(** What [extractall(dir)] leaves on disk: each member written under [dir],
    in archive order. Member names are the relative, normalised names
    [zipfile] writes to. *)
Definition extracted (dir : text) (ms : list (text * text))
    (f : gmap text file_data) : gmap text file_data :=
  foldl (λ f m, <[posixpath.join dir m.1 := Text m.2]> f) f ms.

Definition extractall (dir : text) (ms : list (text * text)) : M () :=
  do f <- get_fs; put_fs (extracted dir ms f).

(** [os.rename(src, dst)] *)
Definition os_rename (src dst : text) : M () :=
  do f <- get_fs;
  match f !! src with
  | Some d => put_fs (<[dst := d]> (delete src f))
  | None => raise (FileNotFoundError src)
  end.

(** [os.makedirs(path, exist_ok=True)]: directories are implicit. *)
Definition os_makedirs (path : text) : M () := ret ().

(** [os.mkdir(path)], for a directory that does not exist yet. *)
Definition os_mkdir (path : text) : M () := ret ().

(** [shutil.copy(src, dst)] for a directory [dst]; returns the new path. *)
Definition shutil_copy (src dst : text) : M text :=
  do f <- get_fs;
  match f !! src with
  | Some d =>
      let target := posixpath.join dst (posixpath.basename src) in
      put_fs (<[target := d]> f);; ret target
  | None => raise (FileNotFoundError src)
  end.

(** ** [unzip_and_copy] *)

(** The pattern [\bTestShopping\b]. *)
Definition TEST_NAME : text := txt "TestShopping".
Definition test_name_pattern : list re.atom :=
  re.Boundary :: map re.Lit TEST_NAME ++ [re.Boundary].

(** The literal [skipped="2"]. *)
Definition SKIPPED_MARK : text :=
  txt "skipped=" ++ [DQUOTE] ++ txt "2" ++ [DQUOTE].

Definition origin_path (zip_path : text) : text :=
  posixpath.dirname zip_path
    ++ txt "/Host_Machine_Files/$DEVICEFARM_LOG_DIR/junitreport.xml".

Definition device_name (zip_path : text) : text :=
  posixpath.basename (posixpath.dirname zip_path).

Definition rename_path (zip_path : text) : text :=
  posixpath.dirname (origin_path zip_path) ++ txt "/" ++ device_name zip_path
    ++ txt " appium junitreport.xml".

Definition report_path (zip_path : text) : text :=
  posixpath.dirname (posixpath.dirname (posixpath.dirname zip_path))
    ++ txt "/report/".

Section Script.
Context `{PythonRuntime}.

Definition re_sub (p : list re.atom) (repl s : text) : M text :=
  match re.sub p repl s with
  | inr r => ret r
  | inl e => raise e
  end.

(** First half of [unzip_and_copy]: extract, rename the report, copy it
    to the report directory. Returns [result_path]. *)
Definition relocate_report (zip_path : text) : M text :=
  do ms <- open_zip zip_path;
  extractall (posixpath.dirname zip_path) ms;;
  os_rename (origin_path zip_path) (rename_path zip_path);;
  os_makedirs (report_path zip_path);;
  shutil_copy (rename_path zip_path) (report_path zip_path).

(** Second half: rewrite the test name in the copy and report validity. *)
Definition rewrite_report (zip_path result_path : text) : M bool :=
  do content <- read_text result_path;
  do modified_content <-
    re_sub test_name_pattern (txt "AppiumTest " ++ device_name zip_path) content;
  write_file result_path (Text modified_content);;
  if contains content SKIPPED_MARK then ret false else ret true.

Definition unzip_and_copy (zip_path : text) : M bool :=
  do result_path <- relocate_report zip_path;
  rewrite_report zip_path result_path.

End Script.


(** ** The remote service *)

(** Answer of a request: a value, or an exception raised by the client
    library. *)
Inductive reply (A : Type) :=
  | Reply (a : A)
  | Fails (e : exn).
Arguments Reply {A} a.
Arguments Fails {A} e.

(** [response['upload']]: [message] and [metadata] may be absent. *)
Record upload := {
  up_arn : text;
  up_url : text;
  up_status : text;
  up_message : option text;
  up_metadata : option text
}.

(** The response of [requests.put]. *)
Record http_response := { ok : bool; reason : text }.

Record job := { j_name : text; j_arn : text }.
Record suite := { s_name : text; s_arn : text }.
Record test := { t_arn : text }.
Record artifact := {
  a_type : text;
  a_name : text;
  a_extension : text;
  a_url : text
}.

(** Everything outside the script. Status queries are indexed by how many
    times the loop has asked before, so a reply may change over time; opening
    the local file and the HTTP PUT are one step, [r_put]. *)
Record remote := {
  r_create_upload : text → text → text → text → reply upload;
  r_put : text → text → text → reply http_response;
  r_get_upload : text → nat → reply upload;
  r_schedule_run : text → text → text → text → text → text → reply text;
  r_get_run : text → nat → reply text;
  r_stop_run : text → reply ();
  r_list_jobs : text → reply (list job);
  r_list_suites : text → reply (list suite);
  r_list_tests : text → reply (list test);
  r_list_artifacts : text → text → reply (list artifact);
  r_http_get : text → reply file_data;
  r_today : text;
  r_random8 : text;
  r_cwd : text
}.

(** Perform a request: log it, then return its value or raise. *)
Definition call {A} (ev : event) (r : reply A) : M A :=
  emit ev;;
  match r with
  | Reply a => ret a
  | Fails e => raise e
  end.

(** A [for] loop that threads the variables it assigns. *)
Fixpoint foldM {A B} (f : B → A → M B) (b : B) (l : list A) : M B :=
  match l with
  | [] => ret b
  | a :: l' => do b' <- f b a; foldM f b' l'
  end.

Record config := {
  appFilePath : text;
  projectArn : text;
  testSpecArn : text;
  poolArn : text;
  namePrefix : text;
  testPackage : text
}.

Definition get_config (app_file_path test_package project_arn test_spec_arn
    pool_arn : text) : config :=
  {| appFilePath := app_file_path;
     projectArn := project_arn;
     testSpecArn := test_spec_arn;
     poolArn := pool_arn;
     namePrefix := txt "MyAndroidAppTest";
     testPackage := test_package |}.

Definition FAILED : text := txt "FAILED".
Definition SUCCEEDED : text := txt "SUCCEEDED".
Definition COMPLETED : text := txt "COMPLETED".
Definition ERRORED : text := txt "ERRORED".
Definition TESTS_SUITE : text := txt "Tests Suite".
Definition DOT_LOGCAT : text := txt ".logcat".
Definition DOT_ZIP : text := txt ".zip".
Definition ARTIFACT_TYPES : list text :=
  [txt "FILE"; txt "SCREENSHOT"; txt "LOG"].
Definition OCTET_STREAM : text := txt "application/octet-stream".

Definition text_eqb (a b : text) : bool := bool_decide (a = b).

(** [artifact['type'] + "_" + artifact['name'] + "." + artifact['extension']] *)
Definition filename_of (a : artifact) : text :=
  a_type a ++ txt "_" ++ a_name a ++ txt "." ++ a_extension a.

Section Procedures.
Context `{PythonRuntime} (env : remote).

(** *** [upload_df_file] *)

Definition put_failed_message (put_req : http_response) : text :=
  txt "Couldn't upload, requests said we're not ok. Requests says: "
    ++ reason put_req.

Definition upload_failed_prefix : text :=
  txt "The upload failed processing. DeviceFarm says reason is: " ++ [10%N].

(** The [while True] loop of [upload_df_file]; [n] counts the
    [get_upload] requests made so far. *)
Fixpoint upload_loop (fuel n : nat) (upload_arn : text) (response : upload)
    : M () :=
  match fuel with
  | O => spin
  | S fuel' =>
      if text_eqb (up_status response) FAILED then
        match up_message response with
        | Some m => raise (PyException (upload_failed_prefix ++ m))
        | None =>
            match up_metadata response with
            | Some d => raise (PyException (upload_failed_prefix ++ d))
            | None => raise (KeyError (txt "metadata"))
            end
        end
      else if text_eqb (up_status response) SUCCEEDED then ret ()
      else
        emit (Sleep 5);;
        do response' <- call (GetUpload upload_arn)
                             (r_get_upload env upload_arn n);
        upload_loop fuel' (S n) upload_arn response'
  end.

Definition upload_df_file (fuel : nat) (cfg : config)
    (unique filename type_ mime : text) : M text :=
  let name := unique ++ txt "_" ++ posixpath.basename filename in
  do response <- call (CreateUpload name type_)
                      (r_create_upload env (projectArn cfg) name type_ mime);
  let upload_arn := up_arn response in
  let upload_url := up_url response in
  do put_req <- call (HttpPut upload_url filename)
                     (r_put env upload_url filename mime);
  (if negb (ok put_req)
   then raise (PyException (put_failed_message put_req))
   else ret ());;
  upload_loop fuel 0 upload_arn response;;
  ret upload_arn.

(** *** [download_artifacts] *)

(** Body of the innermost loop; the loop variables are [logcat_paths] and
    [is_valid_test]. *)
Definition process_artifact (path_to : text) (acc : list text * bool)
    (a : artifact) : M (list text * bool) :=
  let '(logcat_paths, is_valid_test) := acc in
  os_makedirs path_to;;
  let filename := filename_of a in
  if endswith filename DOT_LOGCAT || endswith filename DOT_ZIP then
    let artifact_save_path := posixpath.join path_to filename in
    let logcat_paths' :=
      if is_valid_test && endswith filename DOT_LOGCAT
      then logcat_paths ++ [artifact_save_path]
      else logcat_paths in
    write_file artifact_save_path (Text []);;
    do content <- call (HttpGet (a_url a) artifact_save_path)
                       (r_http_get env (a_url a));
    write_file artifact_save_path content;;
    if endswith filename DOT_ZIP then
      do v <- unzip_and_copy artifact_save_path;
      ret (logcat_paths', v)
    else ret (logcat_paths', is_valid_test)
  else ret (logcat_paths, is_valid_test).

(** One iteration of [for artifact_type in ['FILE', 'SCREENSHOT', 'LOG']]:
    [is_valid_test] is set to true before the artifacts are visited. *)
Definition process_type (path_to : text) (t : test)
    (logcat_paths : list text) (artifact_type : text) : M (list text) :=
  do artifacts <- call (ListArtifacts artifact_type (t_arn t))
                       (r_list_artifacts env artifact_type (t_arn t));
  do acc <- foldM (process_artifact path_to) (logcat_paths, true) artifacts;
  ret acc.1.

Definition process_test (path_to : text) (logcat_paths : list text)
    (t : test) : M (list text) :=
  foldM (process_type path_to t) logcat_paths ARTIFACT_TYPES.

Definition process_suite (path_to : text) (logcat_paths : list text)
    (s : suite) : M (list text) :=
  if text_eqb (s_name s) TESTS_SUITE then
    do tests <- call (ListTests (s_arn s)) (r_list_tests env (s_arn s));
    foldM (process_test path_to) logcat_paths tests
  else ret logcat_paths.

Definition process_job (save_path : text) (logcat_paths : list text)
    (j : job) : M (list text) :=
  let job_name := j_name j in
  os_makedirs (posixpath.join save_path job_name);;
  do suites <- call (ListSuites (j_arn j)) (r_list_suites env (j_arn j));
  foldM (process_suite (posixpath.join save_path job_name)) logcat_paths suites.

Definition download_artifacts (jobs : list job) (save_path : text)
    : M (list text) :=
  foldM (process_job save_path) [] jobs.

(** *** [save_logcat_path] *)

Definition save_logcat_path (logcat_paths : list text) : M () :=
  write_file (txt "path.yaml") (Text (yaml_dump logcat_paths)).

(** *** [upload_and_test_android] *)

(** The [while True] loop inside the [try] block; returns the final
    [state]. *)
Fixpoint run_loop (fuel n : nat) (run_arn : text) : M text :=
  match fuel with
  | O => spin
  | S fuel' =>
      do state <- call (GetRun run_arn) (r_get_run env run_arn n);
      if text_eqb state COMPLETED || text_eqb state ERRORED then ret state
      else emit (Sleep 10);; run_loop fuel' (S n) run_arn
  end.

(** The [except Exception] handler. *)
Definition stop_and_exit (run_arn : text) (e : exn) : M text :=
  call (StopRun run_arn) (r_stop_run env run_arn);;
  exit 1.

Definition poll_run (fuel : nat) (run_arn : text) : M text :=
  try_except (run_loop fuel 0 run_arn) (stop_and_exit run_arn).

Definition upload_and_test_android (fuel : nat) (app_file_path test_package
    project_arn test_spec_arn pool_arn : text) : M () :=
  let cfg := get_config app_file_path test_package project_arn
               test_spec_arn pool_arn in
  let unique := namePrefix cfg ++ txt "-" ++ r_today env ++ r_random8 env in
  do our_upload_arn <-
    upload_df_file fuel cfg unique (appFilePath cfg) (txt "ANDROID_APP")
      OCTET_STREAM;
  do our_test_package_arn <-
    upload_df_file fuel cfg unique (testPackage cfg)
      (txt "APPIUM_PYTHON_TEST_PACKAGE") OCTET_STREAM;
  do run_arn <-
    call (ScheduleRun unique our_upload_arn our_test_package_arn)
         (r_schedule_run env (projectArn cfg) our_upload_arn (poolArn cfg)
            unique (testSpecArn cfg) our_test_package_arn);
  do state <- poll_run fuel run_arn;
  do jobs <- call (ListJobs run_arn) (r_list_jobs env run_arn);
  let save_path := posixpath.join (r_cwd env) unique in
  os_mkdir save_path;;
  do logcat_paths <- download_artifacts jobs save_path;
  save_logcat_path logcat_paths.

End Procedures.

(** ** Notions used in the statements *)

(** [needle] occurs in [hay] as a contiguous substring. *)
Definition occurs (needle hay : text) : Prop :=
  ∃ pre post, hay = pre ++ needle ++ post.

(** The value of the variable [result_path]: where [shutil.copy] puts the
    renamed report. *)
Definition result_path (zip_path : text) : text :=
  posixpath.join (report_path zip_path)
    (posixpath.basename (rename_path zip_path)).

(** The replacement argument of the [re.sub] call. *)
Definition label (zip_path : text) : text :=
  txt "AppiumTest " ++ device_name zip_path.

Definition is_logcat (a : artifact) : bool := endswith (filename_of a) DOT_LOGCAT.
Definition is_zip (a : artifact) : bool := endswith (filename_of a) DOT_ZIP.
Definition selected (a : artifact) : bool := is_logcat a || is_zip a.

(** [artifact_save_path] *)
Definition save_path_of (path_to : text) (a : artifact) : text :=
  posixpath.join path_to (filename_of a).

(** The list a listing request returns. *)
Definition listing {A} (r : reply (list A)) : list A :=
  match r with Reply l => l | Fails _ => [] end.


Definition is_get_upload (ev : event) : bool :=
  match ev with GetUpload _ => true | _ => false end.
Definition is_get_run (ev : event) : bool :=
  match ev with GetRun _ => true | _ => false end.
Definition is_sleep (ev : event) : bool :=
  match ev with Sleep _ => true | _ => false end.

Section Encounter.
Context (env : remote).

(** The artifacts a job offers, in the order the nested loops of
    [download_artifacts] meet them; [leaf] says what is collected at
    each artifact. *)
Section Walk.
Context {X : Type} (leaf : text → artifact → list X).

Definition type_walk (path_to : text) (t : test) (ty : text) : list X :=
  flat_map (leaf path_to) (listing (r_list_artifacts env ty (t_arn t))).

Definition test_walk (path_to : text) (t : test) : list X :=
  flat_map (type_walk path_to t) ARTIFACT_TYPES.

Definition suite_walk (path_to : text) (s : suite) : list X :=
  if text_eqb (s_name s) TESTS_SUITE
  then flat_map (test_walk path_to) (listing (r_list_tests env (s_arn s)))
  else [].

Definition job_walk (save_path : text) (j : job) : list X :=
  flat_map (suite_walk (posixpath.join save_path (j_name j)))
           (listing (r_list_suites env (j_arn j))).
End Walk.


(** The path of a logcat artifact. *)
Definition logcat_of (path_to : text) (a : artifact) : list text :=
  if is_logcat a then [save_path_of path_to a] else [].

Definition job_artifacts (j : job) : list artifact :=
  job_walk (λ _ a, [a]) [] j.



Definition job_logcats (save_path : text) (j : job) : list text :=
  job_walk logcat_of save_path j.

Definition encountered_logcats (jobs : list job) (save_path : text)
    : list text :=
  flat_map (job_logcats save_path) jobs.

(** What the upload loop looks at: first the [create_upload] response,
    then the successive [get_upload] answers. *)
Definition observed_upload (first : upload) (k : nat) : reply upload :=
  match k with
  | O => Reply first
  | S k' => r_get_upload env (up_arn first) k'
  end.
End Encounter.

Definition upload_pending (u : upload) : Prop :=
  up_status u ≠ FAILED ∧ up_status u ≠ SUCCEEDED.

Definition run_terminal (s : text) : Prop := s = COMPLETED ∨ s = ERRORED.

(** [k] sleeps of [d] seconds, each followed by the request [ev]. *)
Definition sleep_then (d : nat) (ev : event) (k : nat) : list event :=
  concat (replicate k [Sleep d; ev]).

(** [k] requests [ev], with a sleep of [d] seconds after all but the last
    [last] of them. *)
Definition then_sleep (d : nat) (ev : event) (k : nat) : list event :=
  concat (replicate k [ev; Sleep d]).

(** The two literals between which [rename_path] puts the device name. *)
Definition HOST_LOG_DIR : text := txt "/Host_Machine_Files/$DEVICEFARM_LOG_DIR".
Definition REPORT_SUFFIX : text := txt " appium junitreport.xml".

(** ** Whole-word replacement, as the specification words it *)

Section WholeWord.
Context `{PythonRuntime}.

(** An occurrence of the test name is a whole word when the character
    before it ([prev]) and the character after it (the head of [rest]) are
    not word characters; the ends of the text count as such. *)
Definition whole_word (prev : option N) (rest : text) : Prop :=
  re.is_word_opt prev = false ∧ re.is_word_opt (head rest) = false.

(** [rewritten lbl prev s out]: [out] is [s] with every whole-word
    occurrence of the test name replaced by [lbl] and every other
    character kept; [prev] is the character before [s]. *)
Inductive rewritten (lbl : text) : option N → text → text → Prop :=
  | rewritten_nil prev :
      rewritten lbl prev [] []
  | rewritten_word prev rest out :
      whole_word prev rest →
      rewritten lbl (last TEST_NAME) rest out →
      rewritten lbl prev (TEST_NAME ++ rest) (lbl ++ out)
  | rewritten_keep prev c s out :
      ¬ (∃ rest, c :: s = TEST_NAME ++ rest ∧ whole_word prev rest) →
      rewritten lbl (Some c) s out →
      rewritten lbl prev (c :: s) (c :: out).
End WholeWord.

(** The world after some more events have been logged. *)
Definition logged (w : world) (l : list event) : world :=
  World (fs w) (log w ++ l).


(** What the upload loop raises on a FAILED status. *)
Definition upload_failure (u : upload) : exn :=
  match up_message u, up_metadata u with
  | Some m, _ => PyException (upload_failed_prefix ++ m)
  | None, Some d => PyException (upload_failed_prefix ++ d)
  | None, None => KeyError (txt "metadata")
  end.

(** The [k] observations from index [n] on are answers with a pending
    status. *)
Definition pending_until (env : remote) (first : upload) (n k : nat) : Prop :=
  ∀ i, i < k →
    ∃ v, observed_upload env first (n + i) = Reply v ∧ upload_pending v.

(** The two requests [upload_df_file] makes before its loop. *)
Definition upload_prologue (name type_ : text) (first : upload)
    (filename : text) : list event :=
  [CreateUpload name type_; HttpPut (up_url first) filename].

(** The [k] answers of [get_run] from index [n] on are statuses other than
    COMPLETED and ERRORED. *)
Definition run_pending_until (env : remote) (run_arn : text) (n k : nat)
    : Prop :=
  ∀ i, i < k →
    ∃ s, r_get_run env run_arn (n + i) = Reply s ∧ ¬ run_terminal s.

(** A command that never ends the process. *)
Definition no_exit {A} (m : M A) : Prop :=
  ∀ w c w', m w ≠ (Exit c, w').

(** A command that makes no request. *)
Definition keeps_log {A} (m : M A) : Prop :=
  ∀ w r w', m w = (r, w') → log w' = log w.


(** A command that leaves the file system as it is, however it ends. *)
Definition keeps_fs {A} (m : M A) : Prop :=
  ∀ w r w', m w = (r, w') → fs w' = fs w.

(** [emits P m]: however [m] ends, it has only added events that satisfy
    [P] to the log. *)
Definition emits {A} (P : event → Prop) (m : M A) : Prop :=
  ∀ w r w', m w = (r, w') → ∃ l, log w' = log w ++ l ∧ Forall P l.

Definition is_schedule_run (ev : event) : bool :=
  match ev with ScheduleRun _ _ _ => true | _ => false end.
Definition is_http_get (ev : event) : bool :=
  match ev with HttpGet _ _ => true | _ => false end.

(** The value of the variable [unique] in [upload_and_test_android]. *)
Definition unique_of (env : remote) : text :=
  txt "MyAndroidAppTest" ++ txt "-" ++ r_today env ++ r_random8 env.

(** The directory three levels above the zip file, under which [report/]
    is made. *)
Definition report_root (zip_path : text) : text :=
  posixpath.dirname (posixpath.dirname (posixpath.dirname zip_path)).

(** The paths of [lp] name logcat files that are in the file system. *)
Definition on_disk (lp : list text) (w : world) : Prop :=
  Forall (λ q, endswith q DOT_LOGCAT = true ∧ is_Some (fs w !! q)) lp.

(** The exceptions of a replacement template: [re.error], or [IndexError]
    for a group name that is an identifier. *)
Definition template_failure `{PythonRuntime} (e : exn) : Prop :=
  e = ReError ∨ ∃ name, e = IndexError name ∧ re.isidentifier name = true.

(** ** Concrete data for examples *)

Module Demo.

(** A runtime for evaluation: ASCII only, block-style YAML of plain items. *)
Definition runtime : PythonRuntime :=
  {| unicode_alnum := λ _, false;
     unicode_xid_start := λ _, false;
     unicode_xid_continue := λ _, false;
     yaml_dump := λ l, concat (map (λ p, txt "- " ++ p ++ [10%N]) l) |}.

Definition REPORT_MEMBER : text :=
  txt "Host_Machine_Files/$DEVICEFARM_LOG_DIR/junitreport.xml".

Definition report_ok : text :=
  txt "<testsuite name='TestShopping' tests='3'><testcase classname='TestShoppingCart'/></testsuite>".

Definition report_skipped : text :=
  txt "<testsuite name='TestShopping' tests='3' " ++ SKIPPED_MARK ++ txt "/>".

Definition archive (report : text) : file_data :=
  Archive [ (REPORT_MEMBER, report);
            (txt "Host_Machine_Files/$DEVICEFARM_LOG_DIR/notes.txt", txt "n") ].

Definition zip_path : text :=
  txt "/w/run/Pixel 7/CUSTOMER_ARTIFACT_Customer Artifacts.zip".

Definition world_with (report : text) : world :=
  World {[ zip_path := archive report ]} [].

(** A directory whose name has a backslash in it. *)
Definition odd_zip_path : text :=
  txt "/w/run/Lab\new/CUSTOMER_ARTIFACT_Customer Artifacts.zip".

Definition odd_world : world :=
  World {[ odd_zip_path := archive report_ok ]} [].

(** A directory name that is not a replacement template. *)
Definition bad_zip_path : text :=
  txt "/w/run/Galaxy\S21/CUSTOMER_ARTIFACT_Customer Artifacts.zip".

Definition bad_world : world :=
  World {[ bad_zip_path := archive report_ok ]} [].

(** A directory name that refers to a group by name. *)
Definition named_zip_path : text :=
  txt "/w/run/rack\g<slot>/CUSTOMER_ARTIFACT_Customer Artifacts.zip".

Definition named_world : world :=
  World {[ named_zip_path := archive report_ok ]} [].

(** An archive without the report. *)
Definition plain_archive : file_data :=
  Archive [ (txt "Host_Machine_Files/$DEVICEFARM_LOG_DIR/notes.txt", txt "n") ].

Definition plain_world : world :=
  World {[ zip_path := plain_archive ]} [].


(** A remote service with one job, three suites and one test. *)
Definition upload_of (arn status : text) : upload :=
  {| up_arn := arn;
     up_url := txt "https://upload/" ++ arn;
     up_status := status;
     up_message :=
       if text_eqb status FAILED then Some (txt "Invalid application file")
       else None;
     up_metadata := None |}.

Definition job1 : job := {| j_name := txt "Pixel 7"; j_arn := txt "arn:job:1" |}.
Definition test1 : test := {| t_arn := txt "arn:test:1" |}.

Definition zip_artifact : artifact :=
  {| a_type := txt "CUSTOMER_ARTIFACT";
     a_name := txt "Customer Artifacts";
     a_extension := txt "zip";
     a_url := txt "https://files/customer.zip" |}.

Definition logcat_artifact : artifact :=
  {| a_type := txt "DEVICE_LOG";
     a_name := txt "Logcat";
     a_extension := txt "logcat";
     a_url := txt "https://files/logcat" |}.

Definition video_artifact : artifact :=
  {| a_type := txt "VIDEO";
     a_name := txt "Video";
     a_extension := txt "mp4";
     a_url := txt "https://files/video" |}.

Definition put_ok : http_response := {| ok := true; reason := txt "OK" |}.
Definition put_forbidden : http_response :=
  {| ok := false; reason := txt "Forbidden" |}.

(** The run is RUNNING twice, then COMPLETED. *)
Definition run_completes (n : nat) : reply text :=
  Reply (if n <? 2 then txt "RUNNING" else COMPLETED).

(** The run is RUNNING for ever. *)
Definition run_forever (n : nat) : reply text := Reply (txt "RUNNING").


(** The status query fails at the second request. *)
Definition run_breaks (n : nat) : reply text :=
  if n <? 1 then Reply (txt "RUNNING")
  else Fails (ClientError (txt "ThrottlingException")).

(** [files] and [logs] are the FILE and LOG listings of the test,
    [report] the report inside the zip artifact, [first_status] the status
    in the create-upload response, [last_status] the status the upload
    settles in. *)
Definition env_with (files logs : list artifact) (report : text)
    (first_status last_status : text) (put : http_response)
    (run : nat → reply text) (stop : reply ()) : remote :=
  {| r_create_upload := λ _ name _ _,
       Reply (upload_of (txt "arn:upload:" ++ name) first_status);
     r_put := λ _ _ _, Reply put;
     r_get_upload := λ arn n,
       Reply (upload_of arn
                (if n <? 1 then txt "PROCESSING" else last_status));
     r_schedule_run := λ _ _ _ _ _ _, Reply (txt "arn:run:1");
     r_get_run := λ _ n, run n;
     r_stop_run := λ _, stop;
     r_list_jobs := λ _, Reply [job1];
     r_list_suites := λ _,
       Reply [ {| s_name := txt "Setup Suite"; s_arn := txt "arn:suite:0" |};
               {| s_name := txt "Tests Suite"; s_arn := txt "arn:suite:1" |};
               {| s_name := txt "Teardown Suite"; s_arn := txt "arn:suite:2" |} ];
     r_list_tests := λ _, Reply [test1];
     r_list_artifacts := λ ty _,
       if text_eqb ty (txt "FILE") then Reply files
       else if text_eqb ty (txt "LOG") then Reply logs
       else Reply [];
     r_http_get := λ url,
       if text_eqb url (a_url zip_artifact) then Reply (archive report)
       else Reply (Text (txt "..."));
     r_today := txt "2024-05-01";
     r_random8 := txt "aBcDeFgH";
     r_cwd := txt "/w" |}.

Definition env : remote :=
  env_with [zip_artifact; video_artifact] [logcat_artifact] report_ok
    (txt "INITIALIZED") SUCCEEDED put_ok run_completes (Reply ()).




Definition env_upload_fails : remote :=
  env_with [] [] report_ok (txt "INITIALIZED") FAILED put_ok
    run_completes (Reply ()).

Definition env_put_forbidden : remote :=
  env_with [] [] report_ok (txt "INITIALIZED") SUCCEEDED put_forbidden
    run_completes (Reply ()).

Definition env_ready : remote :=
  env_with [] [] report_ok SUCCEEDED SUCCEEDED put_ok run_completes
    (Reply ()).

Definition env_rejected : remote :=
  env_with [] [] report_ok FAILED FAILED put_ok run_completes (Reply ()).

Definition env_forever : remote :=
  env_with [] [] report_ok (txt "INITIALIZED") SUCCEEDED put_ok
    run_forever (Reply ()).


Definition env_breaks : remote :=
  env_with [] [] report_ok (txt "INITIALIZED") SUCCEEDED put_ok
    run_breaks (Reply ()).

Definition env_breaks_twice : remote :=
  env_with [] [] report_ok (txt "INITIALIZED") SUCCEEDED put_ok
    run_breaks (Fails (ClientError (txt "AccessDeniedException"))).

(** Services in which one kind of request raises. *)
Definition with_create_upload (e : remote)
    (f : text → text → text → text → reply upload) : remote :=
  {| r_create_upload := f;
     r_put := r_put e;
     r_get_upload := r_get_upload e;
     r_schedule_run := r_schedule_run e;
     r_get_run := r_get_run e;
     r_stop_run := r_stop_run e;
     r_list_jobs := r_list_jobs e;
     r_list_suites := r_list_suites e;
     r_list_tests := r_list_tests e;
     r_list_artifacts := r_list_artifacts e;
     r_http_get := r_http_get e;
     r_today := r_today e;
     r_random8 := r_random8 e;
     r_cwd := r_cwd e |}.

Definition with_put (e : remote)
    (f : text → text → text → reply http_response) : remote :=
  {| r_create_upload := r_create_upload e;
     r_put := f;
     r_get_upload := r_get_upload e;
     r_schedule_run := r_schedule_run e;
     r_get_run := r_get_run e;
     r_stop_run := r_stop_run e;
     r_list_jobs := r_list_jobs e;
     r_list_suites := r_list_suites e;
     r_list_tests := r_list_tests e;
     r_list_artifacts := r_list_artifacts e;
     r_http_get := r_http_get e;
     r_today := r_today e;
     r_random8 := r_random8 e;
     r_cwd := r_cwd e |}.

Definition with_get_upload (e : remote)
    (f : text → nat → reply upload) : remote :=
  {| r_create_upload := r_create_upload e;
     r_put := r_put e;
     r_get_upload := f;
     r_schedule_run := r_schedule_run e;
     r_get_run := r_get_run e;
     r_stop_run := r_stop_run e;
     r_list_jobs := r_list_jobs e;
     r_list_suites := r_list_suites e;
     r_list_tests := r_list_tests e;
     r_list_artifacts := r_list_artifacts e;
     r_http_get := r_http_get e;
     r_today := r_today e;
     r_random8 := r_random8 e;
     r_cwd := r_cwd e |}.

Definition with_list_suites (e : remote)
    (f : text → reply (list suite)) : remote :=
  {| r_create_upload := r_create_upload e;
     r_put := r_put e;
     r_get_upload := r_get_upload e;
     r_schedule_run := r_schedule_run e;
     r_get_run := r_get_run e;
     r_stop_run := r_stop_run e;
     r_list_jobs := r_list_jobs e;
     r_list_suites := f;
     r_list_tests := r_list_tests e;
     r_list_artifacts := r_list_artifacts e;
     r_http_get := r_http_get e;
     r_today := r_today e;
     r_random8 := r_random8 e;
     r_cwd := r_cwd e |}.

Definition with_http_get (e : remote)
    (f : text → reply file_data) : remote :=
  {| r_create_upload := r_create_upload e;
     r_put := r_put e;
     r_get_upload := r_get_upload e;
     r_schedule_run := r_schedule_run e;
     r_get_run := r_get_run e;
     r_stop_run := r_stop_run e;
     r_list_jobs := r_list_jobs e;
     r_list_suites := r_list_suites e;
     r_list_tests := r_list_tests e;
     r_list_artifacts := r_list_artifacts e;
     r_http_get := f;
     r_today := r_today e;
     r_random8 := r_random8 e;
     r_cwd := r_cwd e |}.

Definition run_arn : text := txt "arn:run:1".
Definition app_upload_arn : text := txt "arn:upload:run1_app.apk".

Definition cfg : config :=
  get_config (txt "app.apk") (txt "tests.zip") (txt "arn:project")
    (txt "arn:spec") (txt "arn:pool").

Definition empty_world : world := World ∅ [].

Definition throttled : exn := ClientError (txt "ThrottlingException").
Definition timed_out : exn := ClientError (txt "ConnectTimeout").

Definition env_create_fails : remote :=
  with_create_upload env (λ _ _ _ _, Fails throttled).
Definition env_transfer_fails : remote :=
  with_put env (λ _ _ _, Fails timed_out).
Definition env_query_fails : remote :=
  with_get_upload env (λ arn n,
    if n <? 1 then Reply (upload_of arn (txt "PROCESSING"))
    else Fails throttled).
Definition env_get_fails : remote :=
  with_http_get env (λ _, Fails timed_out).
Definition env_no_tests_suite : remote :=
  with_list_suites env (λ _,
    Reply [ {| s_name := txt "Setup Suite"; s_arn := txt "arn:suite:0" |};
            {| s_name := txt "Teardown Suite"; s_arn := txt "arn:suite:2" |} ]).

Definition save_path : text := txt "/w/run".
Definition path_to : text := txt "/w/run/Pixel 7".
Definition logcat_path : text := txt "/w/run/Pixel 7/DEVICE_LOG_Logcat.logcat".

(** The script on given answers, with five iterations allowed per loop. *)
Definition script (e : remote) : M () :=
  @upload_and_test_android runtime e 5 (txt "app.apk") (txt "tests.zip")
    (txt "arn:project") (txt "arn:spec") (txt "arn:pool").

End Demo.

(** * Properties *)

(** Decide a closed decidable proposition by evaluation. *)
Ltac by_compute := apply (bool_decide_unpack _); vm_compute; exact I.

(** ** Text *)

Lemma startswith_spec (s p : text) : startswith s p = true ↔ ∃ post, s = p ++ post.
Proof. unfold startswith. rewrite bool_decide_eq_true. done. Qed.

Lemma endswith_spec (s p : text) : endswith s p = true ↔ ∃ pre, s = pre ++ p.
Proof. unfold endswith. rewrite bool_decide_eq_true. done. Qed.

Lemma contains_spec (hay needle : text) :
  contains hay needle = true ↔ occurs needle hay.
Proof.
  unfold occurs. induction hay as [|c hay IH]; simpl.
  - rewrite orb_false_r, startswith_spec. split.
    + intros [post ->]. by exists [], post.
    + intros (pre & post & E). destruct pre; [|done]. by exists post.
  - rewrite orb_true_iff, startswith_spec, IH. split.
    + intros [[post ->]|(pre & post & ->)].
      * by exists [], post.
      * by exists (c :: pre), post.
    + intros (pre & post & E). destruct pre as [|x pre].
      * left. by exists post.
      * right. exists pre, post. simpl in E. congruence.
Qed.

Lemma endswith_app (a b p : text) : endswith b p = true → endswith (a ++ b) p = true.
Proof.
  rewrite !endswith_spec. intros [pre ->]. exists (a ++ pre). by rewrite app_assoc.
Qed.

(** A name that ends in [.logcat] does not end in [.zip]. *)
Lemma logcat_not_zip (s : text) :
  endswith s DOT_LOGCAT = true → endswith s DOT_ZIP = false.
Proof.
  rewrite endswith_spec. intros [pre ->].
  apply not_true_is_false. rewrite endswith_spec. intros [pre' E].
  apply (f_equal last) in E. revert E.
  change DOT_LOGCAT with (txt ".logca" ++ [116%N]).
  change DOT_ZIP with (txt ".zi" ++ [112%N]).
  rewrite !app_assoc, !last_snoc. discriminate.
Qed.

(** ** Paths *)

Module posixpath_facts.
Import posixpath.

Lemma rsplit_app p : (rsplit p).1 ++ (rsplit p).2 = p.
Proof.
  induction p as [|c q IH]; [done|]. simpl.
  destruct (rsplit q) as [h t]. simpl in *.
  destruct h as [|x h]; simpl in *.
  - destruct (N.eqb c SEP); simpl; congruence.
  - congruence.
Qed.

Lemma rsplit_tail_no_sep p : SEP ∉ (rsplit p).2.
Proof.
  induction p as [|c q IH]; simpl.
  - apply not_elem_of_nil.
  - destruct (rsplit q) as [h t]. simpl in *.
    destruct h as [|x h]; simpl; [|done].
    destruct (N.eqb_spec c SEP); simpl; [done|].
    rewrite not_elem_of_cons. split; [congruence|done].
Qed.

Lemma rsplit_no_sep s : SEP ∉ s → rsplit s = ([], s).
Proof.
  induction s as [|c q IH]; [done|].
  rewrite not_elem_of_cons. intros [Hc Hq]. simpl. rewrite (IH Hq).
  destruct (N.eqb_spec c SEP); congruence.
Qed.

Lemma rsplit_sep_seg a s : SEP ∉ s → rsplit (a ++ SEP :: s) = (a ++ [SEP], s).
Proof.
  intros Hs. induction a as [|c a IH]; simpl.
  - rewrite (rsplit_no_sep s Hs). done.
  - rewrite IH. destruct a; simpl; done.
Qed.

Lemma rstrip_sep_snoc a c : c ≠ SEP → rstrip_sep (a ++ [c]) = a ++ [c].
Proof.
  intros Hc. induction a as [|x a IH]; simpl.
  - destruct (N.eqb_spec c SEP); congruence.
  - rewrite IH. destruct (a ++ [c]) eqn:E; [|done].
    by destruct a.
Qed.

Lemma rstrip_sep_snoc_sep a : rstrip_sep (a ++ [SEP]) = rstrip_sep a.
Proof. induction a as [|x a IH]; simpl; [done|]. by rewrite IH. Qed.

Lemma rstrip_sep_prefix h : rstrip_sep h `prefix_of` h.
Proof.
  induction h as [|c q IH]; simpl; [done|].
  destruct (rstrip_sep q) as [|y r] eqn:E.
  - destruct (N.eqb c SEP); [apply prefix_nil | apply prefix_cons, prefix_nil].
  - by apply prefix_cons.
Qed.

Lemma all_sep_snoc a c : c ≠ SEP → all_sep (a ++ [c] ++ [SEP]) = false.
Proof.
  intros Hc. unfold all_sep. rewrite forallb_app. cbn [forallb app].
  destruct (N.eqb_spec SEP c); [congruence|].
  apply andb_false_r.
Qed.

(** [dirname] only ever cuts a path short. *)
Lemma dirname_prefix p : dirname p `prefix_of` p.
Proof.
  unfold dirname. simpl.
  assert ((rsplit p).1 `prefix_of` p) as Hh.
  { exists (rsplit p).2. by rewrite rsplit_app. }
  destruct (all_sep _); [done|].
  etrans; [apply rstrip_sep_prefix | done].
Qed.

(** [dirname] of a path whose last component [s] follows a directory part
    that ends in an ordinary character. *)
Lemma dirname_sep_seg a c s :
  c ≠ SEP → SEP ∉ s → dirname (a ++ [c] ++ SEP :: s) = a ++ [c].
Proof.
  intros Hc Hs. unfold dirname.
  replace (a ++ [c] ++ SEP :: s) with ((a ++ [c]) ++ SEP :: s)
    by by rewrite <-app_assoc.
  rewrite rsplit_sep_seg by done. simpl.
  rewrite <-app_assoc, all_sep_snoc by done.
  rewrite app_assoc, rstrip_sep_snoc_sep. by apply rstrip_sep_snoc.
Qed.

Lemma basename_sep_seg a s : SEP ∉ s → basename (a ++ SEP :: s) = s.
Proof. intros Hs. unfold basename. by rewrite rsplit_sep_seg. Qed.

Lemma basename_no_sep p : SEP ∉ basename p.
Proof. apply rsplit_tail_no_sep. Qed.

Lemma join_dir a b :
  head b ≠ Some SEP → join (a ++ [SEP]) b = a ++ [SEP] ++ b.
Proof.
  intros Hb. unfold join, startswith, endswith.
  rewrite bool_decide_eq_false_2.
  2:{ intros [k Hk]. subst b. simpl in Hb. done. }
  rewrite (bool_decide_eq_true_2 (_ `suffix_of` _)).
  2:{ by exists a. }
  rewrite orb_true_r. by rewrite <-app_assoc.
Qed.

(** Whatever [join] does with its first argument, the result ends with
    the second. *)
Lemma join_suffix a b : b `suffix_of` join a b.
Proof.
  unfold join. destruct (startswith b [SEP]); [done|].
  destruct (_ || _).
  - by exists a.
  - exists (a ++ [SEP]). by rewrite <-app_assoc.
Qed.

End posixpath_facts.

(** ** The paths computed by [unzip_and_copy] *)


Lemma report_file_no_sep zp : SEP ∉ device_name zp ++ REPORT_SUFFIX.
Proof.
  rewrite not_elem_of_app. split.
  - apply posixpath_facts.basename_no_sep.
  - by_compute.
Qed.

Lemma rename_path_eq zp :
  rename_path zp =
  posixpath.dirname zp ++ HOST_LOG_DIR ++ SEP :: device_name zp ++ REPORT_SUFFIX.
Proof.
  unfold rename_path, origin_path.
  change (txt "/Host_Machine_Files/$DEVICEFARM_LOG_DIR/junitreport.xml")
    with (txt "/Host_Machine_Files/$DEVICEFARM_LOG_DI" ++ [82%N]
            ++ SEP :: txt "junitreport.xml").
  rewrite (app_assoc (posixpath.dirname zp)).
  rewrite posixpath_facts.dirname_sep_seg; [|done|by_compute].
  rewrite <-!app_assoc. done.
Qed.

Lemma result_path_eq zp :
  result_path zp =
  posixpath.dirname (posixpath.dirname (posixpath.dirname zp))
    ++ txt "/report/" ++ device_name zp ++ REPORT_SUFFIX.
Proof.
  unfold result_path. rewrite rename_path_eq.
  rewrite app_assoc, posixpath_facts.basename_sep_seg
    by apply report_file_no_sep.
  unfold report_path.
  change (txt "/report/") with (txt "/report" ++ [SEP]).
  rewrite app_assoc, posixpath_facts.join_dir.
  - by rewrite <-!app_assoc.
  - pose proof (report_file_no_sep zp) as Hn.
    destruct (device_name zp ++ REPORT_SUFFIX) as [|c r]; [done|].
    simpl. intros [= ->]. apply Hn. left.
Qed.

(** The copy in [report/] is never the renamed file itself. *)
Lemma result_path_ne_rename_path zp : result_path zp ≠ rename_path zp.
Proof.
  rewrite result_path_eq, rename_path_eq. intros E.
  apply (f_equal length) in E.
  destruct (posixpath_facts.dirname_prefix (posixpath.dirname zp)) as [r1 E1].
  destruct (posixpath_facts.dirname_prefix
              (posixpath.dirname (posixpath.dirname zp))) as [r2 E2].
  rewrite E1 in E at 2. rewrite E2 in E at 2.
  repeat (rewrite ?length_app, ?length_cons in E).
  change (length (txt "/report/")) with 8 in E.
  change (length HOST_LOG_DIR) with 39 in E.
  lia.
Qed.

(** ** The command monad *)

Lemma bind_Ret {A B} (m : M A) (k : A → M B) w a w1 :
  m w = (Ret a, w1) → bind m k w = k a w1.
Proof. unfold bind. by intros ->. Qed.

Lemma bind_Ret_inv {A B} (m : M A) (k : A → M B) w b w' :
  bind m k w = (Ret b, w') →
  ∃ a w1, m w = (Ret a, w1) ∧ k a w1 = (Ret b, w').
Proof.
  unfold bind. destruct (m w) as [[a| | |] w1]; try discriminate. eauto.
Qed.

Lemma run_eq_of_result {A} (x : result A * world) (r : result A) :
  x.1 = r → x = (r, x.2).
Proof. intros <-. by destruct x. Qed.

(** ** [unzip_and_copy] *)

Section UnzipAndCopy.
Context `{PythonRuntime}.

Lemma relocate_report_inv zp w rp w1 :
  relocate_report zp w = (Ret rp, w1) →
  ∃ ms d,
    fs w !! zp = Some (Archive ms) ∧
    extracted (posixpath.dirname zp) ms (fs w) !! origin_path zp = Some d ∧
    rp = result_path zp ∧
    fs w1 = <[result_path zp := d]>
              (<[rename_path zp := d]>
                 (delete (origin_path zp)
                    (extracted (posixpath.dirname zp) ms (fs w)))) ∧
    log w1 = log w.
Proof.
  unfold relocate_report, open_zip, extractall, os_rename, os_makedirs,
    shutil_copy, bind, get_fs, put_fs, ret, raise. simpl.
  destruct (fs w !! zp) as [[t|ms]|] eqn:Hz; try discriminate. simpl.
  destruct (extracted _ ms (fs w) !! origin_path zp) as [d|] eqn:Ho;
    simpl; try discriminate.
  rewrite lookup_insert_eq. simpl.
  intros [= <- <-]. exists ms, d. simpl. done.
Qed.

Lemma relocate_report_Ret zp w ms d :
  fs w !! zp = Some (Archive ms) →
  extracted (posixpath.dirname zp) ms (fs w) !! origin_path zp = Some d →
  ∃ w1, relocate_report zp w = (Ret (result_path zp), w1) ∧
        fs w1 !! result_path zp = Some d.
Proof.
  intros Hz Ho.
  unfold relocate_report, open_zip, extractall, os_rename, os_makedirs,
    shutil_copy, bind, get_fs, put_fs, ret, raise. simpl.
  rewrite Hz. simpl. rewrite Ho. simpl. rewrite lookup_insert_eq. simpl.
  eexists. split; [done|]. simpl. apply lookup_insert_eq.
Qed.

(** The second half, once the copy is known to hold [content]. *)
Lemma rewrite_report_eq zp rp w1 content :
  fs w1 !! rp = Some (Text content) →
  rewrite_report zp rp w1 =
  match re.sub test_name_pattern (label zp) content with
  | inr modified =>
      (Ret (negb (contains content SKIPPED_MARK)),
       World (<[rp := Text modified]> (fs w1)) (log w1))
  | inl e => (Raise e, w1)
  end.
Proof.
  intros Hc.
  unfold rewrite_report, read_text, write_file, re_sub, bind, get_fs,
    put_fs, ret, raise, label. simpl. rewrite Hc.
  destruct (re.sub _ _ content) as [e|modified]; simpl; [done|].
  by destruct (contains content SKIPPED_MARK).
Qed.

Lemma rewrite_report_inv zp rp w1 b w' :
  rewrite_report zp rp w1 = (Ret b, w') →
  ∃ content modified,
    fs w1 !! rp = Some (Text content) ∧
    re.sub test_name_pattern (label zp) content = inr modified ∧
    b = negb (contains content SKIPPED_MARK) ∧
    fs w' = <[rp := Text modified]> (fs w1) ∧ log w' = log w1.
Proof.
  destruct (fs w1 !! rp) as [[content|ms]|] eqn:Hc.
  - rewrite (rewrite_report_eq _ _ _ _ Hc).
    destruct (re.sub _ _ content) as [e|modified] eqn:Hs; [discriminate|].
    intros [= <- <-]. exists content, modified. done.
  - unfold rewrite_report, read_text, bind, get_fs, raise. simpl.
    rewrite Hc. discriminate.
  - unfold rewrite_report, read_text, bind, get_fs, raise. simpl.
    rewrite Hc. discriminate.
Qed.

Lemma sub_succeeds p repl s :
  (∃ f, re.compile_repl repl = inr f) → ∃ out, re.sub p repl s = inr out.
Proof. unfold re.sub. intros [f ->]. simpl. eauto. Qed.

Lemma compile_repl_literal repl :
  BACKSLASH ∉ repl → re.compile_repl repl = inr (λ _, repl).
Proof. intros Hn. unfold re.compile_repl. by rewrite bool_decide_eq_false_2. Qed.

(** C2. [unzip_and_copy] answers false exactly when the text of the
    copied report, as it is before the test name is rewritten, contains
    [skipped="2"], and true otherwise; it does answer whenever the
    replacement label is an acceptable template. *)
Theorem unzip_and_copy_validity zp w rp w1 content :
  relocate_report zp w = (Ret rp, w1) →
  fs w1 !! rp = Some (Text content) →
  (∀ b w', unzip_and_copy zp w = (Ret b, w') →
     (b = false ↔ occurs SKIPPED_MARK content) ∧
     (b = true ↔ ¬ occurs SKIPPED_MARK content)) ∧
  ((∃ f, re.compile_repl (label zp) = inr f) →
     ∃ modified w',
       re.sub test_name_pattern (label zp) content = inr modified ∧
       unzip_and_copy zp w = (Ret (negb (contains content SKIPPED_MARK)), w') ∧
       fs w' !! rp = Some (Text modified)).
Proof.
  intros Hrel Hc. split.
  - intros b w' Hrun. unfold unzip_and_copy in Hrun.
    rewrite (bind_Ret _ _ _ _ _ Hrel) in Hrun.
    rewrite (rewrite_report_eq _ _ _ _ Hc) in Hrun.
    destruct (re.sub _ _ content); [discriminate|].
    injection Hrun as <- _. rewrite <-contains_spec.
    destruct (contains content SKIPPED_MARK); simpl; split; split;
      congruence.
  - intros Hok.
    destruct (sub_succeeds test_name_pattern _ content Hok) as [modified Hs].
    exists modified. eexists. split; [done|].
    unfold unzip_and_copy. rewrite (bind_Ret _ _ _ _ _ Hrel).
    rewrite (rewrite_report_eq _ _ _ _ Hc), Hs. split; [done|].
    simpl. apply lookup_insert_eq.
Qed.

(** C9. The rewrite changes the copy under [report/] and nothing else:
    the copy is a different file from the renamed report, which keeps the
    extracted content, and every other path holds what the extraction
    left there. *)
Theorem rewrite_touches_only_the_copy zp w rp w1 b w' :
  relocate_report zp w = (Ret rp, w1) →
  unzip_and_copy zp w = (Ret b, w') →
  rp = result_path zp ∧
  rp ≠ rename_path zp ∧
  (∀ p, p ≠ rp → fs w' !! p = fs w1 !! p) ∧
  ∃ ms d,
    fs w !! zp = Some (Archive ms) ∧
    extracted (posixpath.dirname zp) ms (fs w) !! origin_path zp = Some d ∧
    fs w' !! rename_path zp = Some d ∧
    ∀ p, p ≠ rp → p ≠ origin_path zp → p ≠ rename_path zp →
         fs w' !! p = extracted (posixpath.dirname zp) ms (fs w) !! p.
Proof.
  intros Hrel Hrun. unfold unzip_and_copy in Hrun.
  rewrite (bind_Ret _ _ _ _ _ Hrel) in Hrun.
  destruct (rewrite_report_inv _ _ _ _ _ Hrun)
    as (content & modified & Hc & Hs & -> & Hfs & Hlog).
  destruct (relocate_report_inv _ _ _ _ Hrel)
    as (ms & d & Hz & Ho & -> & Hfs1 & Hlog1).
  pose proof (result_path_ne_rename_path zp) as Hne.
  assert (∀ p, p ≠ result_path zp → fs w' !! p = fs w1 !! p) as Hframe.
  { intros p Hp. rewrite Hfs. by apply lookup_insert_ne. }
  repeat split; [done|done|].
  exists ms, d. repeat split; [done|done| |].
  - rewrite Hframe by done. rewrite Hfs1.
    rewrite lookup_insert_ne by done. apply lookup_insert_eq.
  - intros p Hp1 Hp2 Hp3. rewrite Hframe by done. rewrite Hfs1.
    rewrite !lookup_insert_ne by done. by apply lookup_delete_ne.
Qed.

End UnzipAndCopy.

(** ** The rewrite of the test name *)

Section Rewrite.
Context `{PythonRuntime}.

Lemma match_here_lits l p prev rest :
  re.match_here (map re.Lit l ++ p) prev (l ++ rest) =
  app l <$> re.match_here p (from_option Some prev (last l)) rest.
Proof.
  revert prev. induction l as [|c l IH]; intros prev; simpl.
  - by destruct (re.match_here p prev rest).
  - rewrite N.eqb_refl, IH.
    assert (from_option Some (Some c) (last l)
            = from_option Some prev (last (c :: l))) as ->.
    { destruct l as [|x l]; [done|]. rewrite (last_cons c).
      by destruct (last (x :: l)). }
    by destruct (re.match_here p _ rest).
Qed.

Lemma match_here_lits_inv l p prev s m :
  re.match_here (map re.Lit l ++ p) prev s = Some m →
  ∃ rest, s = l ++ rest.
Proof.
  revert prev s m. induction l as [|c l IH]; intros prev s m; simpl.
  - eauto.
  - destruct s as [|x s]; [done|].
    destruct (N.eqb_spec x c) as [->|]; [|done].
    destruct (re.match_here _ _ s) as [m'|] eqn:E; [|done].
    destruct (IH _ _ _ E) as [rest ->]. eauto.
Qed.

Lemma is_word_T : re.is_word 84 = true.
Proof. reflexivity. Qed.
Lemma is_word_g : re.is_word 103 = true.
Proof. reflexivity. Qed.

(** The pattern matches at a position exactly when the test name stands
    there as a whole word. *)
Lemma match_test_name prev rest :
  re.match_here test_name_pattern prev (TEST_NAME ++ rest) =
  if re.is_word_opt prev || re.is_word_opt (head rest)
  then None else Some TEST_NAME.
Proof.
  unfold test_name_pattern.
  change (re.match_here (re.Boundary :: ?p) prev ?s)
    with (if re.at_boundary prev (head s) then re.match_here p prev s else None).
  change (head (TEST_NAME ++ rest)) with (Some 84%N).
  unfold re.at_boundary at 1. cbn [re.is_word_opt]. rewrite is_word_T.
  destruct (re.is_word_opt prev); [done|]. cbn [eqb negb orb].
  rewrite match_here_lits.
  change (from_option Some prev (last TEST_NAME)) with (Some 103%N).
  cbn [re.match_here]. unfold re.at_boundary.
  cbn [re.is_word_opt]. rewrite is_word_g.
  by destruct (re.is_word_opt (head rest)).
Qed.

Lemma match_test_name_inv prev s m :
  re.match_here test_name_pattern prev s = Some m →
  m = TEST_NAME ∧ ∃ rest, s = TEST_NAME ++ rest ∧ whole_word prev rest.
Proof.
  intros Hm.
  assert (∃ rest, s = TEST_NAME ++ rest) as [rest ->].
  { unfold test_name_pattern in Hm.
    change (re.match_here (re.Boundary :: ?p) prev ?s)
      with (if re.at_boundary prev (head s) then re.match_here p prev s else None)
      in Hm.
    destruct (re.at_boundary prev (head s)); [|done].
    by apply match_here_lits_inv in Hm. }
  rewrite match_test_name in Hm. unfold whole_word.
  destruct (re.is_word_opt prev) eqn:Hp; [done|].
  destruct (re.is_word_opt (head rest)) eqn:Hn; [done|].
  injection Hm as <-. split; [done|]. by exists rest.
Qed.

(** Passing over the rest of a match. *)
Lemma scan_skip p f prev m rest :
  re.scan p f prev (length m) (m ++ rest) =
  re.scan p f (from_option Some prev (last m)) 0 rest.
Proof.
  revert prev. induction m as [|c m IH]; intros prev; [done|].
  cbn [length app re.scan]. rewrite IH. f_equal.
  destruct m as [|x m]; [done|]. rewrite (last_cons c).
  by destruct (last (x :: m)).
Qed.

Lemma scan_cons p f prev c s :
  re.scan p f prev 0 (c :: s) =
  match re.match_here p prev (c :: s) with
  | Some (x :: m) => f (x :: m) ++ re.scan p f (Some c) (length m) s
  | _ => c :: re.scan p f (Some c) 0 s
  end.
Proof. reflexivity. Qed.

Lemma test_name_cons : TEST_NAME = 84%N :: txt "estShopping".
Proof. vm_compute. reflexivity. Qed.

Lemma last_test_name : last TEST_NAME = Some 103%N.
Proof. vm_compute. reflexivity. Qed.

Lemma scan_test_name_word f prev rest :
  whole_word prev rest →
  re.scan test_name_pattern f prev 0 (TEST_NAME ++ rest) =
  f TEST_NAME ++ re.scan test_name_pattern f (last TEST_NAME) 0 rest.
Proof.
  intros [Hp Hn].
  pose proof (match_test_name prev rest) as Hm. rewrite Hp, Hn in Hm.
  cbn [orb] in Hm.
  rewrite last_test_name.
  rewrite test_name_cons in Hm |- *.
  rewrite <-app_comm_cons in Hm |- *.
  rewrite scan_cons, Hm.
  rewrite scan_skip. by f_equal.
Qed.

Lemma scan_keep f prev c s :
  ¬ (∃ rest, c :: s = TEST_NAME ++ rest ∧ whole_word prev rest) →
  re.scan test_name_pattern f prev 0 (c :: s) =
  c :: re.scan test_name_pattern f (Some c) 0 s.
Proof.
  intros Hno. rewrite scan_cons.
  destruct (re.match_here test_name_pattern prev (c :: s)) as [m|] eqn:Hm;
    [|done].
  destruct (match_test_name_inv _ _ _ Hm) as [_ Hw]. by destruct Hno.
Qed.

Lemma whole_word_dec prev rest : Decision (whole_word prev rest).
Proof. unfold whole_word. apply _. Qed.

Lemma occurrence_dec prev (s : text) :
  Decision (∃ rest, s = TEST_NAME ++ rest ∧ whole_word prev rest).
Proof.
  destruct (decide (TEST_NAME `prefix_of` s)) as [Hp|Hp].
  - destruct (whole_word_dec prev (drop (length TEST_NAME) s)) as [Hw|Hw].
    + left. destruct Hp as [rest ->]. exists rest. split; [done|].
      by rewrite drop_app_length in Hw.
    + right. intros (rest & -> & Hw'). apply Hw.
      by rewrite drop_app_length.
  - right. intros (rest & -> & _). apply Hp. by exists rest.
Qed.

(** The scan of [re.sub] computes the whole-word rewrite. *)
Lemma scan_rewritten lbl s prev :
  rewritten lbl prev s (re.scan test_name_pattern (λ _, lbl) prev 0 s).
Proof.
  remember (length s) as n eqn:Hn. revert s prev Hn.
  induction n as [n IH] using lt_wf_ind. intros s prev ->.
  destruct s as [|c s]; [constructor|].
  destruct (occurrence_dec prev (c :: s)) as [(rest & E & Hw)|Hno].
  - rewrite E, scan_test_name_word by done. constructor; [done|].
    eapply IH; [|done]. rewrite E, length_app. simpl. lia.
  - rewrite scan_keep by done. constructor; [done|].
    eapply IH; [|done]. simpl. lia.
Qed.

(** The rewrite is a function of the text. *)
Lemma rewritten_unique lbl prev s o1 o2 :
  rewritten lbl prev s o1 → rewritten lbl prev s o2 → o1 = o2.
Proof.
  intros H1. revert o2.
  induction H1 as [prev|prev rest out Hw _ IH|prev c s out Hno _ IH];
    intros o2 H2.
  - by inversion H2.
  - remember (TEST_NAME ++ rest) as s eqn:Es.
    destruct H2 as [prev|prev rest' out' Hw' Hr'|prev c s out' Hno' Hr'].
    + done.
    + apply app_inv_head in Es as ->. f_equal. by apply IH.
    + destruct Hno'. by exists rest.
  - remember (c :: s) as s0 eqn:Es.
    destruct H2 as [prev|prev rest' out' Hw' Hr'|prev c' s' out' Hno' Hr'].
    + done.
    + destruct Hno. exists rest'. by rewrite Es.
    + injection Es as <- <-. f_equal. by apply IH.
Qed.

(** For a label without a backslash, [re.sub] succeeds and its result is
    the text with exactly the whole-word occurrences of the test name
    replaced by the label. *)
Lemma sub_test_name_rewritten lbl s out :
  BACKSLASH ∉ lbl →
  re.sub test_name_pattern lbl s = inr out ↔ rewritten lbl None s out.
Proof.
  intros Hn. unfold re.sub. rewrite compile_repl_literal by done. simpl.
  split.
  - intros [= <-]. apply scan_rewritten.
  - intros Hr. f_equal. eapply rewritten_unique; [apply scan_rewritten|done].
Qed.

(** A text in which the test name never stands as a whole word is left
    as it is. *)
Lemma rewritten_same lbl prev s :
  (∀ pre rest, s = pre ++ TEST_NAME ++ rest →
     ¬ whole_word (from_option Some prev (last pre)) rest) →
  rewritten lbl prev s s.
Proof.
  revert prev. induction s as [|c s IH]; intros prev Hno; [constructor|].
  constructor.
  - intros (rest & E & Hw). by apply (Hno [] rest).
  - apply IH. intros pre rest -> Hw. apply (Hno (c :: pre) rest); [done|].
    destruct pre as [|x pre]; [done|]. rewrite last_cons.
    simpl in Hw. by destruct (last (x :: pre)).
Qed.

End Rewrite.

(** ** [unzip_and_copy] on concrete archives *)

Lemma unzip_and_copy_validity_witness :
  (∀ b w',
     @unzip_and_copy Demo.runtime Demo.zip_path
       (Demo.world_with Demo.report_skipped) = (Ret b, w') →
     (b = false ↔ occurs SKIPPED_MARK Demo.report_skipped) ∧
     (b = true ↔ ¬ occurs SKIPPED_MARK Demo.report_skipped)) ∧
  ((∃ f, @re.compile_repl Demo.runtime (label Demo.zip_path) = inr f) →
     ∃ modified w',
       @re.sub Demo.runtime test_name_pattern (label Demo.zip_path)
         Demo.report_skipped = inr modified ∧
       @unzip_and_copy Demo.runtime Demo.zip_path
         (Demo.world_with Demo.report_skipped)
       = (Ret (negb (contains Demo.report_skipped SKIPPED_MARK)), w') ∧
       fs w' !! result_path Demo.zip_path = Some (Text modified)).
Proof.
  apply (@unzip_and_copy_validity Demo.runtime Demo.zip_path
           (Demo.world_with Demo.report_skipped)
           (result_path Demo.zip_path)
           (relocate_report Demo.zip_path
              (Demo.world_with Demo.report_skipped)).2
           Demo.report_skipped).
  - apply run_eq_of_result. vm_compute. reflexivity.
  - vm_compute. reflexivity.
Defined.

Lemma rewrite_touches_only_the_copy_witness :
  result_path Demo.zip_path = result_path Demo.zip_path ∧
  result_path Demo.zip_path ≠ rename_path Demo.zip_path ∧
  (∀ p, p ≠ result_path Demo.zip_path →
     fs (@unzip_and_copy Demo.runtime Demo.zip_path
           (Demo.world_with Demo.report_ok)).2 !! p
     = fs (relocate_report Demo.zip_path
             (Demo.world_with Demo.report_ok)).2 !! p) ∧
  ∃ ms d,
    fs (Demo.world_with Demo.report_ok) !! Demo.zip_path = Some (Archive ms) ∧
    extracted (posixpath.dirname Demo.zip_path) ms
      (fs (Demo.world_with Demo.report_ok)) !! origin_path Demo.zip_path
    = Some d ∧
    fs (@unzip_and_copy Demo.runtime Demo.zip_path
          (Demo.world_with Demo.report_ok)).2 !! rename_path Demo.zip_path
    = Some d ∧
    ∀ p, p ≠ result_path Demo.zip_path → p ≠ origin_path Demo.zip_path →
         p ≠ rename_path Demo.zip_path →
         fs (@unzip_and_copy Demo.runtime Demo.zip_path
               (Demo.world_with Demo.report_ok)).2 !! p
         = extracted (posixpath.dirname Demo.zip_path) ms
             (fs (Demo.world_with Demo.report_ok)) !! p.
Proof.
  apply (@rewrite_touches_only_the_copy Demo.runtime Demo.zip_path
           (Demo.world_with Demo.report_ok) (result_path Demo.zip_path)
           (relocate_report Demo.zip_path
              (Demo.world_with Demo.report_ok)).2
           true).
  - apply run_eq_of_result. vm_compute. reflexivity.
  - apply run_eq_of_result. vm_compute. reflexivity.
Defined.

(** The verdict looks at the text as extracted: here the rewrite brings the
    mark into the copy (the device directory is named after it), and the
    answer is still true. *)
Example verdict_is_taken_before_the_rewrite :
  let zp := txt "/w/run/" ++ SKIPPED_MARK ++ txt "/a.zip" in
  let w := World {[ zp := Demo.archive Demo.report_ok ]} [] in
  contains Demo.report_ok SKIPPED_MARK = false ∧
  ∃ modified w',
    @unzip_and_copy Demo.runtime zp w = (Ret true, w') ∧
    fs w' !! result_path zp = Some (Text modified) ∧
    contains modified SKIPPED_MARK = true.
Proof.
  intros zp w. split; [by vm_compute|].
  eexists. exists (@unzip_and_copy Demo.runtime zp w).2.
  split; [apply run_eq_of_result; vm_compute; reflexivity|].
  split; vm_compute; reflexivity.
Qed.

(** The rewrite on a small report: the whole word is replaced, the longer
    word [TestShoppingCart] is kept. *)
Example rewrite_small_report :
  @re.sub Demo.runtime test_name_pattern (label Demo.zip_path)
    (txt "<t name='TestShopping' class='TestShoppingCart'/>")
  = inr (txt "<t name='AppiumTest Pixel 7' class='TestShoppingCart'/>").
Proof. vm_compute. reflexivity. Qed.

(** C3. What the rewrite puts in place of the test name is the label read
    as a replacement template, not the label itself: for a device directory
    named [Lab\new] the two characters backslash, n become a line feed in
    the copied report. *)
Theorem label_is_read_as_template :
  device_name Demo.odd_zip_path = txt "Lab\new" ∧
  @re.sub Demo.runtime test_name_pattern (label Demo.odd_zip_path)
    (txt "<t name='TestShopping'/>")
  = inr (txt "<t name='AppiumTest Lab" ++ [10%N] ++ txt "ew'/>") ∧
  txt "<t name='AppiumTest Lab" ++ [10%N] ++ txt "ew'/>"
  ≠ txt "<t name='" ++ label Demo.odd_zip_path ++ txt "'/>" ∧
  ∃ w', @unzip_and_copy Demo.runtime Demo.odd_zip_path Demo.odd_world
        = (Ret true, w') ∧
        fs w' !! result_path Demo.odd_zip_path
        = Some (Text (txt "<testsuite name='AppiumTest Lab" ++ [10%N]
                        ++ txt "ew' tests='3'><testcase classname='TestShoppingCart'/></testsuite>")).
Proof.
  split; [by vm_compute|]. split; [by vm_compute|]. split; [by vm_compute|].
  exists (@unzip_and_copy Demo.runtime Demo.odd_zip_path Demo.odd_world).2.
  split; [apply run_eq_of_result|]; vm_compute; reflexivity.
Qed.

(** ** Requests and the event log *)

Lemma logged_nil w : logged w [] = w.
Proof. destruct w. unfold logged. simpl. by rewrite app_nil_r. Qed.

Lemma logged_logged w a b : logged (logged w a) b = logged w (a ++ b).
Proof. unfold logged. simpl. by rewrite app_assoc. Qed.

Lemma emit_eq ev w : emit ev w = (Ret (), logged w [ev]).
Proof. done. Qed.

Lemma call_Reply {A} ev (a : A) w : call ev (Reply a) w = (Ret a, logged w [ev]).
Proof. done. Qed.

Lemma call_Fails {A} ev e w : call (A:=A) ev (Fails e) w = (Raise e, logged w [ev]).
Proof. done. Qed.

Lemma text_eqb_true a b : text_eqb a b = true ↔ a = b.
Proof. unfold text_eqb. by rewrite bool_decide_eq_true. Qed.

Lemma text_eqb_false a b : text_eqb a b = false ↔ a ≠ b.
Proof. unfold text_eqb. by rewrite bool_decide_eq_false. Qed.

Lemma sleep_then_S d ev k :
  sleep_then d ev (S k) = [Sleep d; ev] ++ sleep_then d ev k.
Proof. done. Qed.

(** ** [upload_df_file] *)

Section Upload.
Context `{PythonRuntime} (env : remote).

Lemma upload_loop_failed fuel n arn u w :
  up_status u = FAILED →
  upload_loop env (S fuel) n arn u w = (Raise (upload_failure u), w).
Proof.
  intros Hs. cbn [upload_loop].
  rewrite (proj2 (text_eqb_true _ _) Hs). unfold upload_failure.
  by destruct (up_message u), (up_metadata u).
Qed.

Lemma upload_loop_succeeded fuel n arn u w :
  up_status u = SUCCEEDED →
  upload_loop env (S fuel) n arn u w = (Ret (), w).
Proof.
  intros Hs. cbn [upload_loop].
  rewrite (proj2 (text_eqb_false _ _)); [|by rewrite Hs].
  by rewrite (proj2 (text_eqb_true _ _) Hs).
Qed.

Lemma upload_loop_pending fuel n first u v w :
  upload_pending u →
  observed_upload env first (S n) = Reply v →
  upload_loop env (S fuel) n (up_arn first) u w =
  upload_loop env fuel (S n) (up_arn first) v
    (logged w [Sleep 5; GetUpload (up_arn first)]).
Proof.
  intros [Hf Hs] Hv. cbn [upload_loop].
  rewrite (proj2 (text_eqb_false _ _) Hf), (proj2 (text_eqb_false _ _) Hs).
  simpl in Hv. unfold bind at 1. rewrite emit_eq.
  unfold bind at 1. rewrite Hv, call_Reply, logged_logged. done.
Qed.

(** [k] pending observations cost [k] iterations, each a sleep and a
    query. *)
Lemma upload_loop_steps first k : ∀ fuel n u v w,
  observed_upload env first n = Reply u →
  pending_until env first n k →
  observed_upload env first (n + k) = Reply v →
  upload_loop env (k + fuel) n (up_arn first) u w =
  upload_loop env fuel (n + k) (up_arn first) v
    (logged w (sleep_then 5 (GetUpload (up_arn first)) k)).
Proof.
  induction k as [|k IH]; intros fuel n u v w Hu Hp Hv.
  - rewrite Nat.add_0_r in *. rewrite Hu in Hv. injection Hv as <-.
    by rewrite logged_nil.
  - destruct (Hp 0) as (u' & Hu' & Hpend); [lia|].
    rewrite Nat.add_0_r, Hu in Hu'. injection Hu' as <-.
    destruct k as [|k'].
    + rewrite Nat.add_1_r in Hv.
      rewrite (upload_loop_pending _ _ _ _ v) by done.
      by rewrite Nat.add_1_r.
    + destruct (Hp 1) as (u1 & Hu1 & _); [lia|]. rewrite Nat.add_1_r in Hu1.
      replace (S (S k') + fuel) with (S (S k' + fuel)) by lia.
      rewrite (upload_loop_pending _ _ _ _ u1) by done.
      rewrite (IH fuel (S n) u1 v); [| done | | ].
      * rewrite logged_logged. by replace (S n + S k') with (n + S (S k')) by lia.
      * intros i Hi. destruct (Hp (S i)) as (x & Hx & Hxp); [lia|].
        exists x. split; [|done]. by replace (S n + i) with (n + S i) by lia.
      * by replace (S n + S k') with (n + S (S k')) by lia.
Qed.

(** If the loop returns, it has looked at a SUCCEEDED status, after
    pending ones only. *)
Lemma upload_loop_Ret_inv first fuel : ∀ n u w w',
  observed_upload env first n = Reply u →
  upload_loop env fuel n (up_arn first) u w = (Ret (), w') →
  ∃ k v, pending_until env first n k ∧
         observed_upload env first (n + k) = Reply v ∧
         up_status v = SUCCEEDED.
Proof.
  induction fuel as [|fuel IH]; intros n u w w' Hu Hrun; [done|].
  cbn [upload_loop] in Hrun.
  destruct (text_eqb (up_status u) FAILED) eqn:Hf.
  { by destruct (up_message u), (up_metadata u). }
  destruct (text_eqb (up_status u) SUCCEEDED) eqn:Hs.
  { exists 0, u. rewrite Nat.add_0_r. split; [intros i Hi; lia|].
    split; [done|]. by apply text_eqb_true. }
  apply bind_Ret_inv in Hrun as (_ & w1 & _ & Hrun).
  apply bind_Ret_inv in Hrun as (v & w2 & Hcall & Hrun).
  assert (observed_upload env first (S n) = Reply v) as Hv.
  { simpl. destruct (r_get_upload env (up_arn first) n); [|done].
    rewrite call_Reply in Hcall. congruence. }
  destruct (IH _ _ _ _ Hv Hrun) as (k & x & Hp & Hx & Hxs).
  exists (S k), x. replace (n + S k) with (S n + k) by lia.
  split; [|done]. intros [|i] Hi.
  - rewrite Nat.add_0_r. exists u. split; [done|].
    split; by apply text_eqb_false.
  - destruct (Hp i) as (y & Hy & Hyp); [lia|]. exists y.
    by replace (n + S i) with (S n + i) by lia.
Qed.

Section Call.
Context (cfg : config) (unique filename type_ mime : text).
Context (first : upload) (put_req : http_response).
Let name := unique ++ txt "_" ++ posixpath.basename filename.
Hypothesis Hcreate :
  r_create_upload env (projectArn cfg) name type_ mime = Reply first.
Hypothesis Hput :
  r_put env (up_url first) filename mime = Reply put_req.

(** Up to the loop. *)
Lemma upload_df_file_eq fuel w :
  upload_df_file env fuel cfg unique filename type_ mime w =
  if ok put_req then
    bind (upload_loop env fuel 0 (up_arn first) first)
         (λ _, ret (up_arn first)) (logged w (upload_prologue name type_ first filename))
  else (Raise (PyException (put_failed_message put_req)),
        logged w (upload_prologue name type_ first filename)).
Proof.
  unfold upload_df_file. fold name.
  unfold bind at 1. rewrite Hcreate, call_Reply.
  unfold bind at 1. rewrite Hput, call_Reply, logged_logged.
  unfold bind at 1. by destruct (ok put_req).
Qed.

(** C4. A transfer that is not ok raises the error that carries the
    reason given by the transport. After an ok transfer, a FAILED status
    met after pending ones raises the error that carries the message of
    the service, or its metadata when there is no message; and the
    procedure returns, with the identifier of the upload, exactly when
    a SUCCEEDED status is met after pending ones. *)
Theorem upload_df_file_outcomes w :
  (ok put_req = false → ∀ fuel,
     upload_df_file env fuel cfg unique filename type_ mime w =
     (Raise (PyException
               (txt "Couldn't upload, requests said we're not ok. Requests says: "
                  ++ reason put_req)),
      logged w (upload_prologue name type_ first filename)))
  ∧ (ok put_req = true → ∀ k u fuel,
       pending_until env first 0 k →
       observed_upload env first k = Reply u →
       up_status u = FAILED →
       k < fuel →
       upload_df_file env fuel cfg unique filename type_ mime w =
       (Raise (upload_failure u),
        logged w (upload_prologue name type_ first filename
                    ++ sleep_then 5 (GetUpload (up_arn first)) k)))
  ∧ (∀ u m, up_message u = Some m →
       upload_failure u = PyException (upload_failed_prefix ++ m))
  ∧ (∀ u d, up_message u = None → up_metadata u = Some d →
       upload_failure u = PyException (upload_failed_prefix ++ d))
  ∧ (∀ a,
       (∃ fuel w',
          upload_df_file env fuel cfg unique filename type_ mime w
          = (Ret a, w'))
       ↔ ok put_req = true ∧ a = up_arn first ∧
         ∃ k u, pending_until env first 0 k ∧
                observed_upload env first k = Reply u ∧
                up_status u = SUCCEEDED).
Proof.
  split; [|split; [|split; [|split]]].
  - intros Hok fuel. rewrite upload_df_file_eq, Hok. done.
  - intros Hok k u fuel Hp Hu Hs Hk.
    rewrite upload_df_file_eq, Hok.
    replace fuel with (k + S (fuel - S k)) by lia.
    unfold bind.
    rewrite (upload_loop_steps first k _ 0 first u); [|done|done|done].
    rewrite upload_loop_failed by done. by rewrite logged_logged.
  - intros u m Hm. unfold upload_failure. by rewrite Hm.
  - intros u d Hm Hd. unfold upload_failure. by rewrite Hm, Hd.
  - intros a. split.
    + intros (fuel & w' & Hrun). rewrite upload_df_file_eq in Hrun.
      destruct (ok put_req); [|done]. split; [done|].
      apply bind_Ret_inv in Hrun as ([] & w1 & Hloop & Hret).
      split; [by injection Hret|].
      apply (upload_loop_Ret_inv first) in Hloop; [|done].
      exact Hloop.
    + intros (Hok & -> & k & u & Hp & Hu & Hs).
      exists (k + 1). eexists.
      rewrite upload_df_file_eq, Hok. unfold bind.
      rewrite (upload_loop_steps first k _ 0 first u); [|done|done|done].
      rewrite upload_loop_succeeded by done. done.
Qed.

(** C10. The status that came with the create-upload response is looked
    at first: when it is SUCCEEDED the procedure returns the identifier,
    when it is FAILED it raises, and in both cases the only requests
    made are the create-upload and the transfer: no sleep and no
    get-upload. *)
Theorem upload_initial_status_first fuel w :
  (up_status first = SUCCEEDED → ok put_req = true →
     upload_df_file env (S fuel) cfg unique filename type_ mime w =
     (Ret (up_arn first),
      logged w [CreateUpload name type_; HttpPut (up_url first) filename]))
  ∧ (up_status first = FAILED → ok put_req = true →
       upload_df_file env (S fuel) cfg unique filename type_ mime w =
       (Raise (upload_failure first),
        logged w [CreateUpload name type_; HttpPut (up_url first) filename]))
  ∧ (up_status first = SUCCEEDED ∨ up_status first = FAILED →
       ∀ r w',
         upload_df_file env (S fuel) cfg unique filename type_ mime w
         = (r, w') →
         log w' = log w
                  ++ [CreateUpload name type_; HttpPut (up_url first) filename]
         ∧ Forall (λ ev, is_get_upload ev = false ∧ is_sleep ev = false)
             [CreateUpload name type_; HttpPut (up_url first) filename]).
Proof.
  split; [|split].
  - intros Hs Hok. rewrite upload_df_file_eq, Hok. unfold bind.
    by rewrite upload_loop_succeeded.
  - intros Hs Hok. rewrite upload_df_file_eq, Hok. unfold bind.
    by rewrite upload_loop_failed.
  - intros Hs r w' Hrun. split; [|by repeat constructor].
    rewrite upload_df_file_eq in Hrun. unfold bind in Hrun.
    destruct (ok put_req); [|by injection Hrun as _ <-].
    destruct Hs as [Hs|Hs].
    + rewrite upload_loop_succeeded in Hrun by done.
      by injection Hrun as _ <-.
    + rewrite upload_loop_failed in Hrun by done.
      by injection Hrun as _ <-.
Qed.
End Call.

End Upload.

(** ** The run-status loop *)

Lemma then_sleep_S d ev k :
  then_sleep d ev (S k) = [ev; Sleep d] ++ then_sleep d ev k.
Proof. done. Qed.

Lemma then_sleep_snoc d ev k :
  then_sleep d ev (S k) = then_sleep d ev k ++ [ev; Sleep d].
Proof.
  induction k as [|k IH]; [done|].
  rewrite then_sleep_S, IH at 1. rewrite then_sleep_S. by rewrite <-app_assoc.
Qed.

Lemma run_terminal_eqb s :
  text_eqb s COMPLETED || text_eqb s ERRORED = true ↔ run_terminal s.
Proof. unfold run_terminal. by rewrite orb_true_iff, !text_eqb_true. Qed.

Section RunLoop.
Context `{PythonRuntime} (env : remote) (run_arn : text).

Lemma run_loop_terminal fuel n s w :
  r_get_run env run_arn n = Reply s → run_terminal s →
  run_loop env (S fuel) n run_arn w = (Ret s, logged w [GetRun run_arn]).
Proof.
  intros Hs Ht. cbn [run_loop]. unfold bind. rewrite Hs, call_Reply.
  by rewrite (proj2 (run_terminal_eqb s) Ht).
Qed.


Lemma run_loop_pending fuel n s w :
  r_get_run env run_arn n = Reply s → ¬ run_terminal s →
  run_loop env (S fuel) n run_arn w =
  run_loop env fuel (S n) run_arn (logged w [GetRun run_arn; Sleep 10]).
Proof.
  intros Hs Ht. cbn [run_loop]. unfold bind at 1. rewrite Hs, call_Reply.
  destruct (text_eqb s COMPLETED || text_eqb s ERRORED) eqn:E.
  { by apply run_terminal_eqb in E. }
  unfold bind. by rewrite emit_eq, logged_logged.
Qed.

Lemma run_loop_steps k : ∀ fuel n w,
  run_pending_until env run_arn n k →
  run_loop env (k + fuel) n run_arn w =
  run_loop env fuel (n + k) run_arn
    (logged w (then_sleep 10 (GetRun run_arn) k)).
Proof.
  induction k as [|k IH]; intros fuel n w Hp.
  - by rewrite Nat.add_0_r, logged_nil.
  - destruct (Hp 0) as (s & Hs & Ht); [lia|]. rewrite Nat.add_0_r in Hs.
    replace (S k + fuel) with (S (k + fuel)) by lia.
    rewrite (run_loop_pending _ _ s) by done.
    rewrite IH.
    + rewrite logged_logged. by replace (S n + k) with (n + S k) by lia.
    + intros i Hi. destruct (Hp (S i)) as (x & Hx & Hxt); [lia|].
      exists x. by replace (S n + i) with (n + S i) by lia.
Qed.

Lemma run_loop_Ret_inv fuel : ∀ n s w w',
  run_loop env fuel n run_arn w = (Ret s, w') →
  run_terminal s ∧
  ∃ k, k < fuel ∧ run_pending_until env run_arn n k ∧
       r_get_run env run_arn (n + k) = Reply s.
Proof.
  induction fuel as [|fuel IH]; intros n s w w' Hrun; [done|].
  cbn [run_loop] in Hrun.
  apply bind_Ret_inv in Hrun as (x & w1 & Hcall & Hrun).
  assert (r_get_run env run_arn n = Reply x) as Hx.
  { destruct (r_get_run env run_arn n); [|done].
    rewrite call_Reply in Hcall. congruence. }
  destruct (text_eqb x COMPLETED || text_eqb x ERRORED) eqn:E.
  - injection Hrun as -> _. apply run_terminal_eqb in E. split; [done|].
    exists 0. rewrite Nat.add_0_r. split; [lia|]. split; [|done].
    intros i Hi. lia.
  - apply bind_Ret_inv in Hrun as (_ & w2 & _ & Hrun).
    destruct (IH _ _ _ _ Hrun) as (Ht & k & Hk & Hp & Hs). split; [done|].
    exists (S k). replace (n + S k) with (S n + k) by lia.
    split; [lia|]. split; [|done]. intros [|i] Hi.
    + rewrite Nat.add_0_r. exists x. split; [done|].
      intros Hx'. apply run_terminal_eqb in Hx'. congruence.
    + destruct (Hp i) as (y & Hy & Hyt); [lia|]. exists y.
      by replace (n + S i) with (S n + i) by lia.
Qed.

(** C8. The loop ends exactly when the status it has just read is
    COMPLETED or ERRORED: after any [k] other statuses followed by one of
    these two it returns, having asked [k + 1] times; whenever it returns
    it has read such a sequence; and when every status read is another one
    it is still asking after any number of iterations. *)
Theorem run_loop_termination w :
  (∀ k s fuel,
     run_pending_until env run_arn 0 k →
     r_get_run env run_arn k = Reply s →
     run_terminal s →
     k < fuel →
     run_loop env fuel 0 run_arn w =
     (Ret s, logged w (then_sleep 10 (GetRun run_arn) k ++ [GetRun run_arn])))
  ∧ (∀ fuel s w',
       run_loop env fuel 0 run_arn w = (Ret s, w') →
       run_terminal s ∧
       ∃ k, k < fuel ∧ run_pending_until env run_arn 0 k ∧
            r_get_run env run_arn k = Reply s)
  ∧ ((∀ k, run_pending_until env run_arn 0 k) →
     ∀ fuel,
       run_loop env fuel 0 run_arn w =
       (Spin, logged w (then_sleep 10 (GetRun run_arn) fuel))
       ∧ length (List.filter is_get_run
                   (then_sleep 10 (GetRun run_arn) fuel)) = fuel).
Proof.
  split; [|split].
  - intros k s fuel Hp Hs Ht Hk.
    replace fuel with (k + S (fuel - S k)) by lia.
    rewrite run_loop_steps by done.
    rewrite (run_loop_terminal _ _ s) by done. by rewrite logged_logged.
  - intros fuel s w' Hrun. by apply run_loop_Ret_inv in Hrun.
  - intros Hp fuel. split.
    + replace fuel with (fuel + 0) at 1 by lia.
      by rewrite run_loop_steps.
    + induction fuel as [|fuel IH]; [done|].
      rewrite then_sleep_S, List.filter_app, length_app, IH. done.
Qed.

End RunLoop.

(** ** Where the process can end *)

Lemma bind_Exit_inv {A B} (m : M A) (k : A → M B) w c w' :
  bind m k w = (Exit c, w') →
  m w = (Exit c, w') ∨ ∃ a w1, m w = (Ret a, w1) ∧ k a w1 = (Exit c, w').
Proof.
  unfold bind. destruct (m w) as [[a| | |] w1]; try discriminate.
  - right. eauto.
  - intros [= <- <-]. by left.
Qed.

Lemma no_exit_ret {A} (a : A) : no_exit (ret a).
Proof. by intros w c w'. Qed.
Lemma no_exit_raise {A} e : no_exit (raise (A:=A) e).
Proof. by intros w c w'. Qed.
Lemma no_exit_spin {A} : no_exit (spin (A:=A)).
Proof. by intros w c w'. Qed.
Lemma no_exit_emit ev : no_exit (emit ev).
Proof. by intros w c w'. Qed.
Lemma no_exit_get_fs : no_exit get_fs.
Proof. by intros w c w'. Qed.
Lemma no_exit_put_fs f : no_exit (put_fs f).
Proof. by intros w c w'. Qed.
Lemma no_exit_os_makedirs p : no_exit (os_makedirs p).
Proof. by intros w c w'. Qed.
Lemma no_exit_os_mkdir p : no_exit (os_mkdir p).
Proof. by intros w c w'. Qed.

Lemma no_exit_bind {A B} (m : M A) (k : A → M B) :
  no_exit m → (∀ a, no_exit (k a)) → no_exit (bind m k).
Proof.
  intros Hm Hk w c w' Hrun.
  apply bind_Exit_inv in Hrun as [Hrun|(a & w1 & _ & Hrun)].
  - by apply Hm in Hrun.
  - by apply Hk in Hrun.
Qed.

Lemma no_exit_call {A} ev (r : reply A) : no_exit (call ev r).
Proof.
  apply no_exit_bind; [apply no_exit_emit|]. intros _.
  destruct r; [apply no_exit_ret | apply no_exit_raise].
Qed.

Lemma no_exit_foldM {A B} (f : B → A → M B) l :
  (∀ b a, no_exit (f b a)) → ∀ b, no_exit (foldM f b l).
Proof.
  intros Hf. induction l as [|a l IH]; intros b; simpl.
  - apply no_exit_ret.
  - apply no_exit_bind; [apply Hf | apply IH].
Qed.

Create HintDb no_exit discriminated.
#[local] Hint Resolve no_exit_ret no_exit_raise no_exit_spin no_exit_emit
  no_exit_get_fs no_exit_put_fs no_exit_os_makedirs no_exit_call : no_exit.

(** Walk through a command built from [bind], [match] and [if]. *)
Ltac no_exit_step :=
  match goal with
  | |- no_exit (bind _ _) => apply no_exit_bind; [|intros ?]
  | |- no_exit (foldM _ _ _) => apply no_exit_foldM; intros ? ?
  | |- no_exit (match ?x with _ => _ end) => destruct x
  | |- no_exit (let '(_, _) := ?x in _) => destruct x
  | |- no_exit _ => solve [auto with no_exit]
  end.
Ltac no_exit := repeat no_exit_step.

Lemma no_exit_read_text p : no_exit (read_text p).
Proof. unfold read_text. no_exit. Qed.
Lemma no_exit_write_file p d : no_exit (write_file p d).
Proof. unfold write_file. no_exit. Qed.
Lemma no_exit_open_zip p : no_exit (open_zip p).
Proof. unfold open_zip. no_exit. Qed.
Lemma no_exit_extractall d ms : no_exit (extractall d ms).
Proof. unfold extractall. no_exit. Qed.
Lemma no_exit_os_rename a b : no_exit (os_rename a b).
Proof. unfold os_rename. no_exit. Qed.
Lemma no_exit_shutil_copy a b : no_exit (shutil_copy a b).
Proof. unfold shutil_copy. no_exit. Qed.

#[local] Hint Resolve no_exit_read_text no_exit_write_file no_exit_open_zip
  no_exit_extractall no_exit_os_rename no_exit_shutil_copy : no_exit.

Section NoExit.
Context `{PythonRuntime} (env : remote).

Lemma no_exit_unzip_and_copy zp : no_exit (unzip_and_copy zp).
Proof.
  unfold unzip_and_copy, relocate_report, rewrite_report, re_sub. no_exit.
Qed.

Lemma no_exit_process_artifact path_to acc a :
  no_exit (process_artifact env path_to acc a).
Proof.
  pose proof no_exit_unzip_and_copy.
  unfold process_artifact. no_exit.
Qed.

Lemma no_exit_download_artifacts jobs save_path :
  no_exit (download_artifacts env jobs save_path).
Proof.
  pose proof no_exit_process_artifact.
  unfold download_artifacts, process_job, process_suite, process_test,
    process_type.
  no_exit.
Qed.

Lemma no_exit_upload_loop fuel : ∀ n arn u, no_exit (upload_loop env fuel n arn u).
Proof.
  induction fuel as [|fuel IH]; intros n arn u; cbn [upload_loop]; no_exit.
Qed.

Lemma no_exit_upload_df_file fuel cfg unique filename type_ mime :
  no_exit (upload_df_file env fuel cfg unique filename type_ mime).
Proof.
  pose proof no_exit_upload_loop.
  unfold upload_df_file. no_exit.
Qed.


Lemma no_exit_save_logcat_path l : no_exit (save_logcat_path l).
Proof. unfold save_logcat_path. no_exit. Qed.

End NoExit.

(** ** Failures while polling the run *)

Section PollRun.
Context `{PythonRuntime} (env : remote).

Lemma stop_and_exit_eq run_arn e w :
  stop_and_exit env run_arn e w =
  (match r_stop_run env run_arn with
   | Reply _ => Exit 1
   | Fails e' => Raise e'
   end, logged w [StopRun run_arn]).
Proof.
  unfold stop_and_exit, bind.
  destruct (r_stop_run env run_arn) as [[]|e'].
  - by rewrite call_Reply.
  - by rewrite call_Fails.
Qed.



End PollRun.

(** ** [download_artifacts]: what is downloaded *)


Lemma keeps_log_ret {A} (a : A) : keeps_log (ret a).
Proof. by intros w r w' [= _ <-]. Qed.
Lemma keeps_log_raise {A} e : keeps_log (raise (A:=A) e).
Proof. by intros w r w' [= _ <-]. Qed.
Lemma keeps_log_get_fs : keeps_log get_fs.
Proof. by intros w r w' [= _ <-]. Qed.
Lemma keeps_log_put_fs f : keeps_log (put_fs f).
Proof. by intros w r w' [= _ <-]. Qed.
Lemma keeps_log_os_makedirs p : keeps_log (os_makedirs p).
Proof. by intros w r w' [= _ <-]. Qed.

Lemma keeps_log_bind {A B} (m : M A) (k : A → M B) :
  keeps_log m → (∀ a, keeps_log (k a)) → keeps_log (bind m k).
Proof.
  intros Hm Hk w r w'. unfold bind.
  destruct (m w) as [[a| | |] w1] eqn:E; pose proof (Hm _ _ _ E) as Hl.
  - intros Hrun. apply Hk in Hrun. congruence.
  - by intros [= _ <-].
  - by intros [= _ <-].
  - by intros [= _ <-].
Qed.

Create HintDb keeps_log discriminated.
#[local] Hint Resolve keeps_log_ret keeps_log_raise keeps_log_get_fs
  keeps_log_put_fs keeps_log_os_makedirs : keeps_log.

Ltac keeps_log_step :=
  match goal with
  | |- keeps_log (bind _ _) => apply keeps_log_bind; [|intros ?]
  | |- keeps_log (match ?x with _ => _ end) => destruct x
  | |- keeps_log _ => solve [auto with keeps_log]
  end.
Ltac keeps_log := repeat keeps_log_step.

Lemma keeps_log_write_file p d : keeps_log (write_file p d).
Proof. unfold write_file. keeps_log. Qed.

Lemma keeps_log_unzip_and_copy `{PythonRuntime} zp : keeps_log (unzip_and_copy zp).
Proof.
  unfold unzip_and_copy, relocate_report, rewrite_report, re_sub, open_zip,
    extractall, os_rename, shutil_copy, read_text, write_file.
  keeps_log.
Qed.






Section Download.
Context `{PythonRuntime} (env : remote).

(** The loop body, step by step. *)
Lemma process_artifact_eq path_to lp v a w :
  process_artifact env path_to (lp, v) a w =
  if selected a then
    let p := save_path_of path_to a in
    let lp' := if v && is_logcat a then lp ++ [p] else lp in
    let w0 := logged (World (<[p := Text []]> (fs w)) (log w))
                [HttpGet (a_url a) p] in
    match r_http_get env (a_url a) with
    | Fails e => (Raise e, w0)
    | Reply content =>
        let w1 := World (<[p := content]> (fs w0)) (log w0) in
        if is_zip a
        then bind (unzip_and_copy p) (λ v', ret (lp', v')) w1
        else (Ret (lp', v), w1)
    end
  else (Ret (lp, v), w).
Proof.
  unfold process_artifact, selected, is_logcat, is_zip, save_path_of.
  unfold bind at 1. unfold os_makedirs at 1, ret at 1.
  destruct (endswith (filename_of a) DOT_LOGCAT || endswith (filename_of a) DOT_ZIP);
    [|done].
  unfold bind at 1. unfold write_file at 1, bind at 1, get_fs at 1, put_fs at 1.
  unfold bind at 1.
  destruct (r_http_get env (a_url a)) as [content|e].
  - rewrite call_Reply.
    unfold bind at 1. unfold write_file at 1, bind at 1, get_fs at 1, put_fs at 1.
    by destruct (endswith (filename_of a) DOT_ZIP).
  - by rewrite call_Fails.
Qed.






End Download.

(** ** [download_artifacts]: what is recorded *)

Lemma in_job_walk {X} env (leaf : text → artifact → list X) save_path j x :
  x ∈ job_walk env leaf save_path j ↔
  ∃ s t ty a,
    s ∈ listing (r_list_suites env (j_arn j)) ∧
    s_name s = TESTS_SUITE ∧
    t ∈ listing (r_list_tests env (s_arn s)) ∧
    ty ∈ ARTIFACT_TYPES ∧
    a ∈ listing (r_list_artifacts env ty (t_arn t)) ∧
    x ∈ leaf (posixpath.join save_path (j_name j)) a.
Proof.
  unfold job_walk. rewrite list_elem_of_In, in_flat_map. split.
  - intros (s & Hs & Hx). unfold suite_walk in Hx.
    destruct (text_eqb (s_name s) TESTS_SUITE) eqn:Hn; [|done].
    apply in_flat_map in Hx as (t & Ht & Hx).
    apply in_flat_map in Hx as (ty & Hty & Hx).
    apply in_flat_map in Hx as (a & Ha & Hx).
    exists s, t, ty, a. rewrite !list_elem_of_In.
    by apply text_eqb_true in Hn.
  - intros (s & t & ty & a & Hs & Hn & Ht & Hty & Ha & Hx).
    rewrite !list_elem_of_In in *.
    exists s. split; [done|]. unfold suite_walk.
    rewrite (proj2 (text_eqb_true _ _) Hn).
    apply in_flat_map. exists t. split; [done|].
    apply in_flat_map. exists ty. split; [done|].
    apply in_flat_map. by exists a.
Qed.

Lemma logcat_of_ends path_to a p :
  p ∈ logcat_of path_to a →
  endswith p DOT_LOGCAT = true ∧ endswith p DOT_ZIP = false.
Proof.
  unfold logcat_of. destruct (is_logcat a) eqn:Ha; [|by intros ?%elem_of_nil].
  intros ->%list_elem_of_singleton.
  assert (endswith (save_path_of path_to a) DOT_LOGCAT = true) as Hp.
  { destruct (posixpath_facts.join_suffix path_to (filename_of a)) as [k Hk].
    unfold save_path_of. rewrite Hk. by apply endswith_app. }
  split; [done|]. by apply logcat_not_zip.
Qed.

Lemma is_logcat_selected a : is_logcat a = true → selected a = true.
Proof. unfold selected. by intros ->. Qed.

Lemma is_zip_not_logcat a : is_zip a = true → is_logcat a = false.
Proof.
  unfold is_zip, is_logcat. intros Hz.
  destruct (endswith (filename_of a) DOT_LOGCAT) eqn:E; [|done].
  apply logcat_not_zip in E. congruence.
Qed.

Lemma concat_sublist_flat_map {A} (e : A → list text) ds l :
  Forall2 (λ d a, d `sublist_of` e a) ds l →
  concat ds `sublist_of` flat_map e l.
Proof.
  induction 1 as [|d a ds l Hd _ IH]; simpl; [done|]. by apply sublist_app.
Qed.

(** A loop whose every iteration appends a selection of [e a] appends, in
    all, one such selection per element. *)
Lemma foldM_extends {A} (f : list text → A → M (list text))
    (e : A → list text) l :
  (∀ b a w b' w', f b a w = (Ret b', w') →
     ∃ d, b' = b ++ d ∧ d `sublist_of` e a) →
  ∀ b w b' w', foldM f b l w = (Ret b', w') →
    ∃ ds, b' = b ++ concat ds ∧ Forall2 (λ d a, d `sublist_of` e a) ds l.
Proof.
  intros Hf. induction l as [|a l IH]; intros b w b' w' Hrun; simpl in Hrun.
  - injection Hrun as <- _. exists []. by rewrite app_nil_r.
  - apply bind_Ret_inv in Hrun as (b1 & w1 & Hstep & Hrun).
    destruct (Hf _ _ _ _ _ Hstep) as (d & -> & Hd).
    destruct (IH _ _ _ _ Hrun) as (ds & -> & Hds).
    exists (d :: ds). split; [by rewrite <-app_assoc|]. by constructor.
Qed.

Lemma foldM_extends_flat {A} (f : list text → A → M (list text))
    (e : A → list text) l :
  (∀ b a w b' w', f b a w = (Ret b', w') →
     ∃ d, b' = b ++ d ∧ d `sublist_of` e a) →
  ∀ b w b' w', foldM f b l w = (Ret b', w') →
    ∃ d, b' = b ++ d ∧ d `sublist_of` flat_map e l.
Proof.
  intros Hf b w b' w' Hrun.
  destruct (foldM_extends f e l Hf _ _ _ _ Hrun) as (ds & -> & Hds).
  exists (concat ds). split; [done|]. by apply concat_sublist_flat_map.
Qed.

Lemma call_Ret_inv {A} ev (r : reply A) w a w' :
  call ev r w = (Ret a, w') → r = Reply a ∧ w' = logged w [ev].
Proof.
  destruct r as [x|e].
  - rewrite call_Reply. by intros [= <- <-].
  - by rewrite call_Fails.
Qed.

Section Records.
Context `{PythonRuntime} (env : remote).

(** One artifact: its path is appended exactly when the flag is true and
    its name ends in [.logcat]; the flag changes at a zip artifact only,
    where it becomes the verdict of [unzip_and_copy]. *)
Lemma process_artifact_Ret path_to lp v a w lp' v' w' :
  process_artifact env path_to (lp, v) a w = (Ret (lp', v'), w') →
  lp' = lp ++ (if v then logcat_of path_to a else []) ∧
  (if is_zip a
   then ∃ w0 w1, unzip_and_copy (save_path_of path_to a) w0 = (Ret v', w1)
   else v' = v).
Proof.
  rewrite process_artifact_eq. unfold logcat_of, selected.
  destruct (is_logcat a) eqn:Hl, (is_zip a) eqn:Hz; simpl.
  - apply is_zip_not_logcat in Hz. congruence.
  - destruct (r_http_get env (a_url a)); [|done].
    rewrite andb_true_r. intros [= <- <-].
    split; [by destruct v; rewrite ?app_nil_r|done].
  - destruct (r_http_get env (a_url a)); [|done].
    rewrite andb_false_r. intros Hrun.
    apply bind_Ret_inv in Hrun as (b & w1 & Hz' & Hret).
    injection Hret as <- <- _.
    split; [by destruct v; rewrite ?app_nil_r|eauto].
  - intros [= <- <-]. by destruct v; rewrite ?app_nil_r.
Qed.

Lemma listing_records path_to arts : ∀ lp v w lp' v' w',
  foldM (process_artifact env path_to) (lp, v) arts w = (Ret (lp', v'), w') →
  ∃ d, lp' = lp ++ d ∧ d `sublist_of` flat_map (logcat_of path_to) arts.
Proof.
  induction arts as [|a arts IH]; intros lp v w lp' v' w' Hrun;
    simpl in Hrun.
  - injection Hrun as <- _ _. exists []. by rewrite app_nil_r.
  - apply bind_Ret_inv in Hrun as ([lp1 v1] & w1 & Hstep & Hrun).
    apply process_artifact_Ret in Hstep as [-> _].
    destruct (IH _ _ _ _ _ _ Hrun) as (d & -> & Hd).
    eexists. split; [by rewrite <-app_assoc|].
    simpl. apply sublist_app; [|done].
    destruct v; [done|apply sublist_nil_l].
Qed.



Lemma process_type_records path_to t lp ty w lp' w' :
  process_type env path_to t lp ty w = (Ret lp', w') →
  ∃ d, lp' = lp ++ d ∧ d `sublist_of` type_walk env logcat_of path_to t ty.
Proof.
  unfold process_type, type_walk. intros Hrun.
  apply bind_Ret_inv in Hrun as (arts & w1 & Hcall & Hrun).
  apply call_Ret_inv in Hcall as [-> _].
  apply bind_Ret_inv in Hrun as ([lp1 v1] & w2 & Hfold & Hret).
  injection Hret as <- _. by apply listing_records in Hfold.
Qed.

Lemma process_suite_records path_to lp s w lp' w' :
  process_suite env path_to lp s w = (Ret lp', w') →
  ∃ d, lp' = lp ++ d ∧ d `sublist_of` suite_walk env logcat_of path_to s.
Proof.
  unfold process_suite, suite_walk.
  destruct (text_eqb (s_name s) TESTS_SUITE).
  - intros Hrun. apply bind_Ret_inv in Hrun as (tests & w1 & Hcall & Hrun).
    apply call_Ret_inv in Hcall as [-> _]. simpl.
    revert Hrun. apply foldM_extends_flat. clear. intros b t w b' w'.
    unfold process_test, test_walk. apply foldM_extends_flat.
    intros ?????. apply process_type_records.
  - intros [= <- _]. exists []. by rewrite app_nil_r.
Qed.

Lemma process_job_records save_path lp j w lp' w' :
  process_job env save_path lp j w = (Ret lp', w') →
  ∃ d, lp' = lp ++ d ∧ d `sublist_of` job_logcats env save_path j.
Proof.
  unfold process_job, job_logcats, job_walk. intros Hrun.
  apply bind_Ret_inv in Hrun as (_ & w0 & [= <-] & Hrun).
  apply bind_Ret_inv in Hrun as (suites & w1 & Hcall & Hrun).
  apply call_Ret_inv in Hcall as [-> _]. simpl.
  revert Hrun. apply foldM_extends_flat.
  intros ?????. apply process_suite_records.
Qed.

End Records.

(** ** [download_artifacts]: the claims *)

Section DownloadClaims.
Context `{PythonRuntime} (env : remote).

Lemma download_artifacts_records jobs save_path w lp w' :
  download_artifacts env jobs save_path w = (Ret lp, w') →
  ∃ pieces,
    lp = concat pieces ∧
    Forall2 (λ d j, d `sublist_of` job_logcats env save_path j) pieces jobs.
Proof.
  unfold download_artifacts. intros Hrun.
  apply (foldM_extends _ (job_logcats env save_path)) in Hrun.
  - destruct Hrun as (ds & -> & Hds). by exists ds.
  - intros ?????. apply process_job_records.
Qed.




(** C7. The list returned holds, job by job and in the order met, paths
    of artifacts whose name ends in [.logcat]; none of them ends in
    [.zip]; a job without artifacts ending in [.logcat] or [.zip]
    contributes nothing; and a path is appended at an artifact only
    when the flag is true at that moment. *)
Theorem logcat_paths_recorded jobs save_path w lp w' :
  download_artifacts env jobs save_path w = (Ret lp, w') →
  (∃ pieces,
     lp = concat pieces ∧
     Forall2 (λ d j, d `sublist_of` job_logcats env save_path j) pieces jobs)
  ∧ lp `sublist_of` encountered_logcats env jobs save_path
  ∧ Forall (λ p, endswith p DOT_LOGCAT = true ∧ endswith p DOT_ZIP = false) lp
  ∧ (∀ j, (∀ a, a ∈ job_artifacts env j → selected a = false) →
          job_logcats env save_path j = [])
  ∧ (∀ path_to lp0 v a w0 lp1 v1 w1,
       process_artifact env path_to (lp0, v) a w0 = (Ret (lp1, v1), w1) →
       lp1 = lp0 ++ (if v then logcat_of path_to a else [])).
Proof.
  intros Hrun.
  destruct (download_artifacts_records _ _ _ _ _ Hrun) as (ds & -> & Hds).
  pose proof (concat_sublist_flat_map _ _ _ Hds) as Hsub.
  split; [by exists ds|]. split; [done|]. split; [|split].
  - apply Forall_forall. intros p Hp.
    eapply elem_of_sublist in Hp; [|exact Hsub].
    unfold encountered_logcats in Hp.
    rewrite list_elem_of_In, in_flat_map in Hp. destruct Hp as (j & _ & Hp).
    rewrite <-list_elem_of_In in Hp. unfold job_logcats in Hp.
    apply in_job_walk in Hp as (s & t & ty & a & _ & _ & _ & _ & _ & Hp).
    by apply logcat_of_ends in Hp.
  - intros j Hj. destruct (job_logcats env save_path j) as [|p l] eqn:E;
      [done|].
    assert (p ∈ job_logcats env save_path j) as Hp by (rewrite E; left).
    unfold job_logcats in Hp.
    apply in_job_walk in Hp as (s & t & ty & a & Hs & Hn & Ht & Hty & Ha & Hp).
    unfold logcat_of in Hp.
    destruct (is_logcat a) eqn:Hl; [|by apply elem_of_nil in Hp].
    apply is_logcat_selected in Hl. rewrite (Hj a) in Hl; [done|].
    unfold job_artifacts. apply in_job_walk. exists s, t, ty, a. repeat (split; [done|]). left.
  - intros path_to lp0 v a w0 lp1 v1 w1 Hstep.
    by apply process_artifact_Ret in Hstep as [-> _].
Qed.





End DownloadClaims.

(** ** More on [unzip_and_copy] *)

Lemma extracted_lookup_None (dir : text) (ms : list (text * text))
    (f : gmap text file_data) (p : text) :
  f !! p = None →
  (∀ m, m ∈ ms → posixpath.join dir m.1 ≠ p) →
  extracted dir ms f !! p = None.
Proof.
  unfold extracted. revert f. induction ms as [|m ms IH]; intros f Hf Hm; [done|].
  simpl. apply IH.
  - rewrite lookup_insert_ne; [done|]. apply Hm. left.
  - intros x Hx. apply Hm. by right.
Qed.

Lemma extracted_is_Some (dir : text) (ms : list (text * text))
    (f : gmap text file_data) (p : text) :
  is_Some (f !! p) → is_Some (extracted dir ms f !! p).
Proof.
  unfold extracted. revert f. induction ms as [|m ms IH]; intros f Hf; [done|].
  simpl. apply IH. rewrite lookup_insert. by case_decide.
Qed.





Section UnzipExtra.
Context `{PythonRuntime}.

(** X1. What [unzip_and_copy] does with a file it cannot use: a missing
    zip file and a file that is no archive raise at once and change
    nothing; an archive that does not bring the report raises
    [FileNotFoundError] for the report path, with its members already
    extracted and nothing renamed or copied. *)
Theorem unzip_and_copy_unusable_archive zp w :
  (fs w !! zp = None →
     unzip_and_copy zp w = (Raise (FileNotFoundError zp), w))
  ∧ (∀ t, fs w !! zp = Some (Text t) →
       unzip_and_copy zp w = (Raise (BadZipFile zp), w))
  ∧ (∀ ms : list (text * text), fs w !! zp = Some (Archive ms) →
       fs w !! origin_path zp = None →
       (∀ m, m ∈ ms → posixpath.join (posixpath.dirname zp) m.1
                       ≠ origin_path zp) →
       unzip_and_copy zp w =
       (Raise (FileNotFoundError (origin_path zp)),
        World (extracted (posixpath.dirname zp) ms (fs w)) (log w))).
Proof.
  unfold unzip_and_copy, relocate_report, open_zip, extractall, os_rename,
    bind, get_fs, put_fs, ret, raise. simpl.
  split; [|split].
  - by intros ->.
  - by intros t ->.
  - intros ms -> Ho Hm. simpl.
    by rewrite (extracted_lookup_None _ _ _ _ Ho Hm).
Qed.


Lemma until_gt_failure ts e : re.until_gt ts = inl e → e = ReError.
Proof.
  revert e. induction ts as [|[c| |] ts IH]; intros e; simpl;
    try (by intros [= <-]).
  destruct (c =? 62)%N; [done|].
  destruct (re.until_gt ts) as [e'|[n r]]; [|done].
  intros [= <-]. by apply IH.
Qed.

Lemma group_reference_failure name e :
  re.group_reference name = inl e → template_failure e.
Proof.
  unfold re.group_reference, template_failure.
  destruct (bool_decide (name = [])); [intros [= <-]; by left|].
  destruct (forallb re.is_digit name).
  - destruct (forallb (N.eqb 48) name); [done|intros [= <-]; by left].
  - destruct (re.isidentifier name) eqn:E; intros [= <-]; [right|by left].
    by exists name.
Qed.

Lemma parse_escape_failure c rest e :
  re.parse_escape c rest = inl e → template_failure e.
Proof.
  unfold re.parse_escape. intros He.
  repeat case_match; simplify_eq;
    try (by left);
    try (by eapply group_reference_failure);
    try (left; by eapply until_gt_failure).
Qed.

Lemma parse_tokens_failure fuel : ∀ ts e,
  re.parse_tokens fuel ts = inl e → template_failure e.
Proof.
  induction fuel as [|fuel IH]; intros ts e; simpl.
  - destruct ts; [done|intros [= <-]; by left].
  - destruct ts as [|[c|c|] ts]; [done| | |intros [= <-]; by left].
    + destruct (re.parse_tokens fuel ts) as [e'|ps] eqn:E; [|done].
      intros [= <-]. by eapply IH.
    + destruct (re.parse_escape c ts) as [e'|[ps r]] eqn:E.
      * intros [= <-]. by eapply parse_escape_failure.
      * destruct (re.parse_tokens fuel r) as [e'|qs] eqn:E'; [|done].
        intros [= <-]. by eapply IH.
Qed.

Lemma compile_repl_failure repl e :
  re.compile_repl repl = inl e → template_failure e.
Proof.
  unfold re.compile_repl, re.parse_template.
  destruct (bool_decide (BACKSLASH ∈ repl)); [|done].
  destruct (re.parse_tokens _ _) as [e'|ps] eqn:E; [|done].
  intros [= <-]. by eapply parse_tokens_failure.
Qed.

(** X3. When the label is not an acceptable replacement template,
    [re.sub] raises after the report has been renamed and copied, and
    its exception leaves [unzip_and_copy] as it is: [re.error], or
    [IndexError] when the label refers to a group by a well-formed name.
    The copy keeps the text of the report as extracted, and no verdict
    is given. *)
Theorem unzip_and_copy_bad_label zp w rp w1 content e :
  relocate_report zp w = (Ret rp, w1) →
  fs w1 !! rp = Some (Text content) →
  re.compile_repl (label zp) = inl e →
  unzip_and_copy zp w = (Raise e, w1) ∧
  template_failure e ∧
  fs w1 !! result_path zp = Some (Text content) ∧
  fs w1 !! rename_path zp = Some (Text content).
Proof.
  intros Hrel Hc Hbad.
  destruct (relocate_report_inv _ _ _ _ Hrel)
    as (ms & d & Hz & Ho & -> & Hfs1 & Hlog1).
  assert (d = Text content) as ->.
  { rewrite Hfs1, lookup_insert_eq in Hc. by injection Hc. }
  split; [|split; [|split; [done|]]].
  - unfold unzip_and_copy. rewrite (bind_Ret _ _ _ _ _ Hrel).
    rewrite (rewrite_report_eq _ _ _ _ Hc). unfold re.sub.
    by rewrite Hbad.
  - by apply compile_repl_failure in Hbad.
  - rewrite Hfs1, lookup_insert_ne by apply result_path_ne_rename_path.
    apply lookup_insert_eq.
Qed.

End UnzipExtra.

Lemma result_path_split zp :
  result_path zp
  = (report_root zp ++ txt "/report")
      ++ SEP :: (device_name zp ++ REPORT_SUFFIX).
Proof.
  rewrite result_path_eq. unfold report_root.
  change (txt "/report/") with (txt "/report" ++ [SEP]).
  by rewrite <-!app_assoc.
Qed.

(** X4. The copy of a report is named after the device directory: two zip
    files have the same [result_path] exactly when they have the same
    device name and the same directory three levels up. Reports of
    different devices of one run never overwrite each other. *)
Theorem result_path_per_device zp1 zp2 :
  result_path zp1 = result_path zp2 ↔
  device_name zp1 = device_name zp2 ∧ report_root zp1 = report_root zp2.
Proof.
  rewrite !result_path_split. split.
  - intros E.
    assert (device_name zp1 ++ REPORT_SUFFIX = device_name zp2 ++ REPORT_SUFFIX)
      as Hb.
    { apply (f_equal posixpath.basename) in E.
      by rewrite !posixpath_facts.basename_sep_seg in E
        by apply report_file_no_sep. }
    split; [by apply app_inv_tail in Hb|].
    rewrite Hb in E. apply app_inv_tail in E. by apply app_inv_tail in E.
  - by intros [-> ->].
Qed.

(** ** More on [upload_df_file] *)

Section UploadExtra.
Context (env : remote).

Lemma upload_loop_query_fails fuel n first u e w :
  upload_pending u →
  observed_upload env first (S n) = Fails e →
  upload_loop env (S fuel) n (up_arn first) u w =
  (Raise e, logged w [Sleep 5; GetUpload (up_arn first)]).
Proof.
  intros [Hf Hs] He. cbn [upload_loop].
  rewrite (proj2 (text_eqb_false _ _) Hf), (proj2 (text_eqb_false _ _) Hs).
  simpl in He. unfold bind at 1. rewrite emit_eq.
  unfold bind at 1. rewrite He, call_Fails, logged_logged. done.
Qed.

Section Call.
Context (cfg : config) (unique filename type_ mime : text).
Let name := unique ++ txt "_" ++ posixpath.basename filename.

(** X5. A successful upload, request by request: the create-upload,
    the transfer, then one sleep of 5 and one get-upload, for the
    identifier of the created upload, per pending status. The outcome
    is the same for every number of iterations allowed beyond those
    needed. *)
Theorem upload_df_file_trace first put_req k u fuel w :
  r_create_upload env (projectArn cfg) name type_ mime = Reply first →
  r_put env (up_url first) filename mime = Reply put_req →
  ok put_req = true →
  pending_until env first 0 k →
  observed_upload env first k = Reply u →
  up_status u = SUCCEEDED →
  k < fuel →
  upload_df_file env fuel cfg unique filename type_ mime w =
  (Ret (up_arn first),
   logged w ([CreateUpload name type_; HttpPut (up_url first) filename]
               ++ sleep_then 5 (GetUpload (up_arn first)) k)).
Proof.
  intros Hcreate Hput Hok Hp Hu Hs Hk.
  rewrite (upload_df_file_eq env cfg unique filename type_ mime first
             put_req Hcreate Hput), Hok.
  replace fuel with (k + S (fuel - S k)) by lia. unfold bind.
  rewrite (upload_loop_steps env first k _ 0 first u); [|done|done|done].
  rewrite upload_loop_succeeded by done. by rewrite logged_logged.
Qed.

(** X6. An exception raised by a request leaves [upload_df_file] as it
    is, and nothing is requested after it: by the create-upload, before
    any transfer; by the transfer, before any status is looked at; by a
    get-upload, after the sleeps and queries made so far. *)
Theorem upload_df_file_request_fails fuel w :
  (∀ e,
     r_create_upload env (projectArn cfg) name type_ mime = Fails e →
     upload_df_file env fuel cfg unique filename type_ mime w =
     (Raise e, logged w [CreateUpload name type_]))
  ∧ (∀ first e,
       r_create_upload env (projectArn cfg) name type_ mime = Reply first →
       r_put env (up_url first) filename mime = Fails e →
       upload_df_file env fuel cfg unique filename type_ mime w =
       (Raise e,
        logged w [CreateUpload name type_; HttpPut (up_url first) filename]))
  ∧ (∀ first put_req k e,
       r_create_upload env (projectArn cfg) name type_ mime = Reply first →
       r_put env (up_url first) filename mime = Reply put_req →
       ok put_req = true →
       pending_until env first 0 (S k) →
       observed_upload env first (S k) = Fails e →
       S k < fuel →
       upload_df_file env fuel cfg unique filename type_ mime w =
       (Raise e,
        logged w ([CreateUpload name type_; HttpPut (up_url first) filename]
                    ++ sleep_then 5 (GetUpload (up_arn first)) (S k)))).
Proof.
  split; [|split].
  - intros e He. unfold upload_df_file. fold name.
    unfold bind at 1. by rewrite He, call_Fails.
  - intros first e Hc He. unfold upload_df_file. fold name.
    unfold bind at 1. rewrite Hc, call_Reply.
    unfold bind at 1. by rewrite He, call_Fails, logged_logged.
  - intros first put_req k e Hcreate Hput Hok Hp He Hk.
    rewrite (upload_df_file_eq env cfg unique filename type_ mime first
               put_req Hcreate Hput), Hok.
    destruct (Hp k) as (u & Hu & Hpend); [lia|]. simpl in Hu.
    replace fuel with (k + S (fuel - S k)) by lia. unfold bind.
    rewrite (upload_loop_steps env first k _ 0 first u); [|done| |done].
    + rewrite (upload_loop_query_fails _ _ _ _ e) by done.
      rewrite !logged_logged.
      replace (sleep_then 5 (GetUpload (up_arn first)) (S k))
        with (sleep_then 5 (GetUpload (up_arn first)) k
                ++ [Sleep 5; GetUpload (up_arn first)]); [done|].
      clear. induction k as [|k IH]; [done|].
      rewrite sleep_then_S, <-app_assoc, IH. by rewrite <-sleep_then_S.
    + intros i Hi. apply Hp. lia.
Qed.
End Call.

End UploadExtra.

(** ** More on [download_artifacts] *)

Lemma foldM_invariant {A B} (I : B → world → Prop) (f : B → A → M B) l :
  (∀ b a w b' w', I b w → f b a w = (Ret b', w') → I b' w') →
  ∀ b w b' w', I b w → foldM f b l w = (Ret b', w') → I b' w'.
Proof.
  intros Hf. induction l as [|a l IH]; intros b w b' w' Hb Hrun;
    simpl in Hrun.
  - by injection Hrun as <- <-.
  - apply bind_Ret_inv in Hrun as (b1 & w1 & Hstep & Hrun).
    eapply IH; [|done]. by eapply Hf.
Qed.

Lemma endswith_logcat_last (q : text) :
  endswith q DOT_LOGCAT = true → last q = Some 116%N.
Proof.
  rewrite endswith_spec. intros [pre ->].
  change DOT_LOGCAT with (txt ".logca" ++ [116%N]).
  by rewrite app_assoc, last_snoc.
Qed.

Lemma origin_path_last zp : last (origin_path zp) = Some 108%N.
Proof.
  unfold origin_path.
  change (txt "/Host_Machine_Files/$DEVICEFARM_LOG_DIR/junitreport.xml")
    with (txt "/Host_Machine_Files/$DEVICEFARM_LOG_DIR/junitreport.xm"
            ++ [108%N]).
  by rewrite app_assoc, last_snoc.
Qed.

Lemma on_disk_mono lp w w' :
  (∀ q, endswith q DOT_LOGCAT = true →
        is_Some (fs w !! q) → is_Some (fs w' !! q)) →
  on_disk lp w → on_disk lp w'.
Proof.
  intros Hm Hd. eapply Forall_impl; [exact Hd|]. intros q [Hq Hs]. auto.
Qed.

Section DownloadExtra.
Context `{PythonRuntime} (env : remote).

Lemma unzip_and_copy_keeps_logcats zp w b w' q :
  unzip_and_copy zp w = (Ret b, w') →
  endswith q DOT_LOGCAT = true →
  is_Some (fs w !! q) → is_Some (fs w' !! q).
Proof.
  intros Hrun Hq Hs. unfold unzip_and_copy in Hrun.
  apply bind_Ret_inv in Hrun as (rp & w1 & Hrel & Hrew).
  destruct (relocate_report_inv _ _ _ _ Hrel)
    as (ms & d & Hz & Ho & -> & Hfs1 & Hlog1).
  destruct (rewrite_report_inv _ _ _ _ _ Hrew)
    as (content & modified & Hc & _ & _ & Hfs & Hlog).
  assert (q ≠ origin_path zp) as Hne.
  { intros ->. apply endswith_logcat_last in Hq.
    rewrite origin_path_last in Hq. discriminate. }
  rewrite Hfs, Hfs1.
  repeat (rewrite lookup_insert; case_decide; [by eexists|]).
  rewrite lookup_delete_ne by done.
  by apply extracted_is_Some.
Qed.

Lemma process_artifact_on_disk path_to lp v a w lp' v' w' :
  on_disk lp w →
  process_artifact env path_to (lp, v) a w = (Ret (lp', v'), w') →
  on_disk lp' w'.
Proof.
  intros Hd. rewrite process_artifact_eq.
  destruct (selected a) eqn:Hsel; [|by intros [= <- <- <-]].
  cbv zeta.
  destruct (r_http_get env (a_url a)) as [content|e]; [|done].
  set (p := save_path_of path_to a).
  set (w1 := World _ _).
  assert (∀ q, is_Some (fs w !! q) → is_Some (fs w1 !! q)) as Hkeep.
  { intros q Hq. unfold w1, logged. simpl.
    repeat (rewrite lookup_insert; case_decide; [by eexists|]). done. }
  assert (is_Some (fs w1 !! p)) as Hp.
  { unfold w1. simpl. rewrite lookup_insert_eq. by eexists. }
  destruct (is_zip a) eqn:Hz.
  - intros Hrun. apply bind_Ret_inv in Hrun as (b & w2 & Hun & Hret).
    injection Hret as <- <- <-.
    rewrite (is_zip_not_logcat a Hz), andb_false_r.
    eapply on_disk_mono; [|done]. intros q Hq Hs.
    eapply unzip_and_copy_keeps_logcats; [done|done|]. by apply Hkeep.
  - intros [= <- <- <-].
    destruct (v && is_logcat a) eqn:Hrec.
    + apply andb_true_iff in Hrec as [_ Hl].
      apply Forall_app. split.
      * eapply on_disk_mono; [|done]. intros q _. apply Hkeep.
      * apply Forall_singleton. split; [|done].
        destruct (posixpath_facts.join_suffix path_to (filename_of a))
          as [k Hk].
        unfold p, save_path_of. rewrite Hk. by apply endswith_app.
    + eapply on_disk_mono; [|done]. intros q _. apply Hkeep.
Qed.

Lemma process_type_on_disk path_to t lp ty w lp' w' :
  on_disk lp w →
  process_type env path_to t lp ty w = (Ret lp', w') →
  on_disk lp' w'.
Proof.
  intros Hd Hrun. unfold process_type in Hrun.
  apply bind_Ret_inv in Hrun as (arts & w1 & Hcall & Hrun).
  apply call_Ret_inv in Hcall as [_ ->].
  apply bind_Ret_inv in Hrun as ([lp1 v1] & w2 & Hfold & Hret).
  injection Hret as <- <-.
  revert Hfold.
  apply (foldM_invariant (λ acc w, on_disk acc.1 w)); [|done].
  intros [b vb] a w0 [b' vb'] w0'. apply process_artifact_on_disk.
Qed.

Lemma process_suite_on_disk path_to lp s w lp' w' :
  on_disk lp w →
  process_suite env path_to lp s w = (Ret lp', w') →
  on_disk lp' w'.
Proof.
  intros Hd. unfold process_suite.
  destruct (text_eqb (s_name s) TESTS_SUITE); [|by intros [= <- <-]].
  intros Hrun. apply bind_Ret_inv in Hrun as (tests & w1 & Hcall & Hrun).
  apply call_Ret_inv in Hcall as [_ ->].
  revert Hrun. apply (foldM_invariant on_disk); [|done].
  intros b t w0 b' w0' Hb. unfold process_test.
  apply (foldM_invariant on_disk); [|done].
  intros ?????. apply process_type_on_disk.
Qed.

(** X7. Every path in the list [download_artifacts] returns names a file
    that is on disk when it returns: neither a later download nor the
    extraction, renaming and copying done for a zip artifact removes a
    recorded logcat file. *)
Theorem recorded_paths_are_on_disk jobs save_path w lp w' :
  download_artifacts env jobs save_path w = (Ret lp, w') →
  Forall (λ p, is_Some (fs w' !! p)) lp.
Proof.
  intros Hrun.
  assert (on_disk lp w') as Hd.
  { revert Hrun. unfold download_artifacts.
    apply (foldM_invariant on_disk); [|by apply Forall_nil].
    intros b j w0 b' w0' Hb Hjob. unfold process_job in Hjob.
    apply bind_Ret_inv in Hjob as (u & w1 & Hmk & Hjob).
    assert (w1 = w0) as -> by (by injection Hmk).
    apply bind_Ret_inv in Hjob as (suites & w2 & Hcall & Hjob).
    apply call_Ret_inv in Hcall as [_ ->].
    revert Hjob. apply (foldM_invariant on_disk); [|exact Hb].
    intros ?????. apply process_suite_on_disk. }
  eapply Forall_impl; [exact Hd|]. by intros q [_ Hs].
Qed.

(** X8. The file of an artifact is created before its content is asked
    for: when the GET of the first selected artifact of a listing raises,
    the loop ends with that exception and an empty file stands at the
    path of the artifact. *)
Theorem failed_download_leaves_empty_file path_to pre a post e : ∀ lp v w,
  (∀ x, x ∈ pre → selected x = false) →
  selected a = true →
  r_http_get env (a_url a) = Fails e →
  foldM (process_artifact env path_to) (lp, v) (pre ++ a :: post) w =
  (Raise e,
   World (<[save_path_of path_to a := Text []]> (fs w))
     (log w ++ [HttpGet (a_url a) (save_path_of path_to a)])).
Proof.
  induction pre as [|x pre IH]; intros lp v w Hpre Hsel Hget;
    cbn [app foldM]; unfold bind at 1; rewrite process_artifact_eq.
  - by rewrite Hsel, Hget.
  - rewrite (Hpre x) by left. apply IH; [|done|done].
    intros y Hy. apply Hpre. by right.
Qed.

Lemma process_suites_without_tests path_to suites : ∀ lp w,
  (∀ s, s ∈ suites → s_name s ≠ TESTS_SUITE) →
  foldM (process_suite env path_to) lp suites w = (Ret lp, w).
Proof.
  induction suites as [|s suites IH]; intros lp w Hs; [done|].
  cbn [foldM]. unfold bind, process_suite at 1.
  rewrite (proj2 (text_eqb_false _ _)) by (apply Hs; left).
  apply IH. intros x Hx. apply Hs. by right.
Qed.

(** X9. Jobs without a suite named [Tests Suite]: [download_artifacts]
    asks for the suites of each job, once and in order, asks for nothing
    else, leaves the file system as it is and returns the empty list. *)
Theorem download_artifacts_without_tests_suite jobs save_path w :
  (∀ j, j ∈ jobs →
     ∃ suites, r_list_suites env (j_arn j) = Reply suites ∧
               ∀ s, s ∈ suites → s_name s ≠ TESTS_SUITE) →
  download_artifacts env jobs save_path w =
  (Ret [], logged w (map (λ j, ListSuites (j_arn j)) jobs)).
Proof.
  unfold download_artifacts. generalize (@nil text) as lp. revert w.
  induction jobs as [|j jobs IH]; intros w lp Hjobs.
  - by rewrite logged_nil.
  - destruct (Hjobs j) as (suites & Hl & Hs); [left|].
    cbn [foldM map]. unfold bind at 1, process_job at 1.
    unfold bind at 1, os_makedirs at 1, ret at 1.
    unfold bind at 1. rewrite Hl, call_Reply.
    rewrite process_suites_without_tests by done.
    rewrite IH; [|intros x Hx; apply Hjobs; by right].
    by rewrite logged_logged.
Qed.

End DownloadExtra.

(** ** The script as a whole *)

Lemma bind_inv {A B} (m : M A) (k : A → M B) w r w' :
  bind m k w = (r, w') →
  (∃ a w1, m w = (Ret a, w1) ∧ k a w1 = (r, w'))
  ∨ ((∀ b, r ≠ Ret b) ∧ ∃ r0, m w = (r0, w') ∧ ∀ a, r0 ≠ Ret a).
Proof.
  unfold bind. destruct (m w) as [[a| | |] w1] eqn:E.
  - intros Hk. left. eauto.
  - intros [= <- <-]. right. split; [done|]. by eexists.
  - intros [= <- <-]. right. split; [done|]. by eexists.
  - intros [= <- <-]. right. split; [done|]. by eexists.
Qed.

(** *** Commands that leave the file system alone *)

Lemma keeps_fs_ret {A} (a : A) : keeps_fs (ret a).
Proof. by intros w r w' [= _ <-]. Qed.
Lemma keeps_fs_raise {A} e : keeps_fs (raise (A:=A) e).
Proof. by intros w r w' [= _ <-]. Qed.
Lemma keeps_fs_exit {A} c : keeps_fs (exit (A:=A) c).
Proof. by intros w r w' [= _ <-]. Qed.
Lemma keeps_fs_spin {A} : keeps_fs (spin (A:=A)).
Proof. by intros w r w' [= _ <-]. Qed.
Lemma keeps_fs_emit ev : keeps_fs (emit ev).
Proof. by intros w r w' [= _ <-]. Qed.

Lemma keeps_fs_bind {A B} (m : M A) (k : A → M B) :
  keeps_fs m → (∀ a, keeps_fs (k a)) → keeps_fs (bind m k).
Proof.
  intros Hm Hk w r w' Hrun.
  apply bind_inv in Hrun as [(a & w1 & Hm1 & Hk1)|(_ & r0 & Hm1 & _)].
  - apply Hm in Hm1. apply Hk in Hk1. congruence.
  - by apply Hm in Hm1.
Qed.

Lemma keeps_fs_call {A} ev (r : reply A) : keeps_fs (call ev r).
Proof.
  apply keeps_fs_bind; [apply keeps_fs_emit|]. intros _.
  destruct r; [apply keeps_fs_ret | apply keeps_fs_raise].
Qed.

Lemma keeps_fs_try_except {A} (body : M A) handler :
  keeps_fs body → (∀ e, keeps_fs (handler e)) → keeps_fs (try_except body handler).
Proof.
  intros Hb Hh w r w'. unfold try_except.
  destruct (body w) as [[a|e|c|] w1] eqn:E; pose proof (Hb _ _ _ E) as Hfs.
  - by intros [= _ <-].
  - destruct (is_Exception e).
    + intros Hrun. apply Hh in Hrun. congruence.
    + by intros [= _ <-].
  - by intros [= _ <-].
  - by intros [= _ <-].
Qed.

Create HintDb keeps_fs discriminated.
#[local] Hint Resolve keeps_fs_ret keeps_fs_raise keeps_fs_exit keeps_fs_spin
  keeps_fs_emit keeps_fs_call : keeps_fs.

Ltac keeps_fs_step :=
  match goal with
  | |- keeps_fs (bind _ _) => apply keeps_fs_bind; [|intros ?]
  | |- keeps_fs (try_except _ _) => apply keeps_fs_try_except; [|intros ?]
  | |- keeps_fs (match ?x with _ => _ end) => destruct x
  | |- keeps_fs _ => solve [auto with keeps_fs]
  end.
Ltac keeps_fs := repeat keeps_fs_step.

(** *** Commands and the events they add *)

Lemma emits_keeps_log {A} P (m : M A) : keeps_log m → emits P m.
Proof.
  intros Hm w r w' Hrun. exists []. rewrite (Hm _ _ _ Hrun), app_nil_r. done.
Qed.

Lemma emits_ret {A} P (a : A) : emits P (ret a).
Proof. apply emits_keeps_log, keeps_log_ret. Qed.
Lemma emits_raise {A} P e : emits P (raise (A:=A) e).
Proof. apply emits_keeps_log, keeps_log_raise. Qed.
Lemma emits_exit {A} P c : emits P (exit (A:=A) c).
Proof. apply emits_keeps_log. by intros w r w' [= _ <-]. Qed.
Lemma emits_spin {A} P : emits P (spin (A:=A)).
Proof. apply emits_keeps_log. by intros w r w' [= _ <-]. Qed.

Lemma emits_emit (P : event → Prop) ev : P ev → emits P (emit ev).
Proof. intros Hev w r w' [= _ <-]. exists [ev]. split; [done|]. by constructor. Qed.

Lemma emits_bind {A B} P (m : M A) (k : A → M B) :
  emits P m → (∀ a, emits P (k a)) → emits P (bind m k).
Proof.
  intros Hm Hk w r w' Hrun.
  apply bind_inv in Hrun as [(a & w1 & Hm1 & Hk1)|(_ & r0 & Hm1 & _)].
  - destruct (Hm _ _ _ Hm1) as (l1 & El1 & Hl1).
    destruct (Hk _ _ _ _ Hk1) as (l2 & El2 & Hl2).
    exists (l1 ++ l2). split; [by rewrite El2, El1, app_assoc|].
    by apply Forall_app.
  - by apply Hm in Hm1.
Qed.

Lemma emits_call {A} (P : event → Prop) ev (r : reply A) :
  P ev → emits P (call ev r).
Proof.
  intros Hev. apply emits_bind; [by apply emits_emit|]. intros _.
  destruct r; [apply emits_ret | apply emits_raise].
Qed.

Lemma emits_foldM {A B} P (f : B → A → M B) l :
  (∀ b a, emits P (f b a)) → ∀ b, emits P (foldM f b l).
Proof.
  intros Hf. induction l as [|a l IH]; intros b; simpl.
  - apply emits_ret.
  - apply emits_bind; [apply Hf | apply IH].
Qed.

Lemma emits_try_except {A} P (body : M A) handler :
  emits P body → (∀ e, emits P (handler e)) → emits P (try_except body handler).
Proof.
  intros Hb Hh w r w'. unfold try_except.
  destruct (body w) as [[a|e|c|] w1] eqn:E;
    destruct (Hb _ _ _ E) as (l1 & El1 & Hl1).
  - intros [= <- <-]. by exists l1.
  - destruct (is_Exception e).
    + intros Hrun. destruct (Hh _ _ _ _ Hrun) as (l2 & El2 & Hl2).
      exists (l1 ++ l2). split; [by rewrite El2, El1, app_assoc|].
      by apply Forall_app.
    + intros [= <- <-]. by exists l1.
  - intros [= <- <-]. by exists l1.
  - intros [= <- <-]. by exists l1.
Qed.

Ltac emits_step :=
  match goal with
  | |- emits _ (bind _ _) => apply emits_bind; [|intros ?]
  | |- emits _ (foldM _ _ _) => apply emits_foldM; intros ? ?
  | |- emits _ (try_except _ _) => apply emits_try_except; [|intros ?]
  | |- emits _ (call _ _) => apply emits_call; done
  | |- emits _ (emit _) => apply emits_emit; done
  | |- emits _ (ret _) => apply emits_ret
  | |- emits _ (raise _) => apply emits_raise
  | |- emits _ (exit _) => apply emits_exit
  | |- emits _ spin => apply emits_spin
  | |- emits _ (match ?x with _ => _ end) => destruct x
  | |- emits _ (let '(_, _) := ?x in _) => destruct x
  | |- emits _ _ => solve [auto]
  end.
Ltac emits := repeat emits_step.

Section Script.
Context `{PythonRuntime} (env : remote).

Lemma keeps_fs_upload_loop fuel : ∀ n arn u,
  keeps_fs (upload_loop env fuel n arn u).
Proof.
  induction fuel as [|fuel IH]; intros n arn u; cbn [upload_loop]; keeps_fs.
Qed.

Lemma keeps_fs_upload_df_file fuel cfg unique filename type_ mime :
  keeps_fs (upload_df_file env fuel cfg unique filename type_ mime).
Proof.
  pose proof keeps_fs_upload_loop. unfold upload_df_file. keeps_fs.
Qed.

Lemma keeps_fs_run_loop fuel : ∀ n arn, keeps_fs (run_loop env fuel n arn).
Proof.
  induction fuel as [|fuel IH]; intros n arn; cbn [run_loop]; keeps_fs.
Qed.

Lemma keeps_fs_poll_run fuel arn : keeps_fs (poll_run env fuel arn).
Proof.
  pose proof keeps_fs_run_loop. unfold poll_run, stop_and_exit. keeps_fs.
Qed.

Lemma emits_upload_loop (P : event → Prop) fuel :
  (∀ n, P (Sleep n)) → (∀ a, P (GetUpload a)) →
  ∀ n arn u, emits P (upload_loop env fuel n arn u).
Proof.
  intros Hs Hg.
  induction fuel as [|fuel IH]; intros n arn u; cbn [upload_loop]; emits.
Qed.

Lemma emits_upload_df_file (P : event → Prop) fuel cfg unique filename
    type_ mime :
  (∀ n t, P (CreateUpload n t)) → (∀ u f, P (HttpPut u f)) →
  (∀ n, P (Sleep n)) → (∀ a, P (GetUpload a)) →
  emits P (upload_df_file env fuel cfg unique filename type_ mime).
Proof.
  intros Hc Hp Hs Hg. pose proof (emits_upload_loop P fuel Hs Hg).
  unfold upload_df_file. emits.
Qed.

Lemma emits_run_loop (P : event → Prop) fuel :
  (∀ n, P (Sleep n)) → (∀ a, P (GetRun a)) →
  ∀ n arn, emits P (run_loop env fuel n arn).
Proof.
  intros Hs Hg.
  induction fuel as [|fuel IH]; intros n arn; cbn [run_loop]; emits.
Qed.

Lemma emits_poll_run (P : event → Prop) fuel arn :
  (∀ n, P (Sleep n)) → (∀ a, P (GetRun a)) → (∀ a, P (StopRun a)) →
  emits P (poll_run env fuel arn).
Proof.
  intros Hs Hg Ht. pose proof (emits_run_loop P fuel Hs Hg).
  unfold poll_run, stop_and_exit. emits.
Qed.

Lemma emits_download_artifacts (P : event → Prop) jobs save_path :
  (∀ a, P (ListSuites a)) → (∀ a, P (ListTests a)) →
  (∀ t a, P (ListArtifacts t a)) → (∀ u p, P (HttpGet u p)) →
  emits P (download_artifacts env jobs save_path).
Proof.
  intros Hs Ht Ha Hg.
  assert (∀ zp, emits P (unzip_and_copy zp)) as Hz
    by (intros zp; apply emits_keeps_log, keeps_log_unzip_and_copy).
  assert (∀ p d, emits P (write_file p d)) as Hw
    by (intros p d; apply emits_keeps_log, keeps_log_write_file).
  assert (∀ p, emits P (os_makedirs p)) as Hm
    by (intros p; apply emits_keeps_log, keeps_log_os_makedirs).
  unfold download_artifacts, process_job, process_suite, process_test,
    process_type, process_artifact.
  emits.
Qed.

(** The part of the script after the run has been scheduled. *)
Lemma emits_after_schedule (P : event → Prop) fuel run_arn unique :
  (∀ n, P (Sleep n)) → (∀ a, P (GetRun a)) → (∀ a, P (StopRun a)) →
  (∀ a, P (ListJobs a)) →
  (∀ a, P (ListSuites a)) → (∀ a, P (ListTests a)) →
  (∀ t a, P (ListArtifacts t a)) → (∀ u p, P (HttpGet u p)) →
  emits P
    (bind (poll_run env fuel run_arn) (λ _,
       bind (call (ListJobs run_arn) (r_list_jobs env run_arn)) (λ jobs,
         bind (os_mkdir (posixpath.join (r_cwd env) unique)) (λ _,
           bind (download_artifacts env jobs
                   (posixpath.join (r_cwd env) unique))
                save_logcat_path)))).
Proof.
  intros. pose proof (emits_poll_run P fuel run_arn).
  assert (∀ jobs sp, emits P (download_artifacts env jobs sp)) as Hd
    by (intros; by apply emits_download_artifacts).
  assert (∀ l, emits P (save_logcat_path l)) as Hsv
    by (intros l; apply emits_keeps_log, keeps_log_write_file).
  assert (∀ p, emits P (os_mkdir p)) as Hmk
    by (intros p; apply emits_ret).
  emits.
Qed.

Lemma schedule_run_not_in l n a p :
  Forall (λ ev, is_schedule_run ev = false) l → ScheduleRun n a p ∉ l.
Proof.
  intros Hl Hin. rewrite Forall_forall in Hl. by apply Hl in Hin.
Qed.

(** X10. The run is scheduled only after both uploads have returned:
    whenever a schedule-run request is in the log, the upload of the
    application and then the upload of the test package each returned an
    identifier, the request names these two identifiers, and the run
    carries the unique name under which both uploads were made. *)
Theorem run_scheduled_after_uploads fuel app_file_path test_package
    project_arn test_spec_arn pool_arn w r w' n a p :
  upload_and_test_android env fuel app_file_path test_package project_arn
    test_spec_arn pool_arn w = (r, w') →
  Forall (λ ev, is_schedule_run ev = false) (log w) →
  ScheduleRun n a p ∈ log w' →
  n = unique_of env ∧
  ∃ w1 w2,
    upload_df_file env fuel
      (get_config app_file_path test_package project_arn test_spec_arn
         pool_arn)
      (unique_of env) app_file_path (txt "ANDROID_APP") OCTET_STREAM w
    = (Ret a, w1) ∧
    upload_df_file env fuel
      (get_config app_file_path test_package project_arn test_spec_arn
         pool_arn)
      (unique_of env) test_package (txt "APPIUM_PYTHON_TEST_PACKAGE")
      OCTET_STREAM w1
    = (Ret p, w2).
Proof.
  intros Hrun Hw Hin. unfold upload_and_test_android in Hrun.
  cbv zeta in Hrun. cbn [namePrefix appFilePath testPackage get_config] in Hrun.
  fold (unique_of env) in Hrun.
  set (P := λ ev, is_schedule_run ev = false) in *.
  assert (∀ cfg f t, emits P (upload_df_file env fuel cfg (unique_of env) f t
                                OCTET_STREAM)) as Hup
    by (intros; by apply emits_upload_df_file).
  apply bind_inv in Hrun as [(a1 & w1 & Hu1 & Hrun)|(_ & r0 & Hu1 & _)].
  2:{ destruct (Hup _ _ _ _ _ _ Hu1) as (l & El & Hl).
      rewrite El in Hin. apply elem_of_app in Hin as [Hin|Hin];
        by apply schedule_run_not_in in Hin. }
  destruct (Hup _ _ _ _ _ _ Hu1) as (l1 & El1 & Hl1).
  apply bind_inv in Hrun as [(a2 & w2 & Hu2 & Hrun)|(_ & r0 & Hu2 & _)].
  2:{ destruct (Hup _ _ _ _ _ _ Hu2) as (l & El & Hl).
      rewrite El, El1 in Hin.
      apply elem_of_app in Hin as [Hin|Hin];
        [apply elem_of_app in Hin as [Hin|Hin]|];
        by apply schedule_run_not_in in Hin. }
  destruct (Hup _ _ _ _ _ _ Hu2) as (l2 & El2 & Hl2).
  assert (ScheduleRun n a p ∈ log w2 ++ [ScheduleRun (unique_of env) a1 a2] →
          n = unique_of env ∧ a = a1 ∧ p = a2) as Hone.
  { rewrite El2, El1. intros Hin'.
    apply elem_of_app in Hin' as [Hin'|Hin'].
    - apply elem_of_app in Hin' as [Hin'|Hin'];
        [apply elem_of_app in Hin' as [Hin'|Hin']|];
        by apply schedule_run_not_in in Hin'.
    - apply list_elem_of_singleton in Hin'. by injection Hin'. }
  assert (n = unique_of env ∧ a = a1 ∧ p = a2) as (-> & -> & ->).
  { apply bind_inv in Hrun as [(run_arn & w3 & Hc & Hrun)|(_ & r0 & Hc & _)].
    - apply call_Ret_inv in Hc as [_ ->].
      destruct (emits_after_schedule P fuel run_arn (unique_of env))
        with (w := logged w2 [ScheduleRun (unique_of env) a1 a2])
             (r := r) (w' := w') as (l3 & El3 & Hl3); try done.
      rewrite El3 in Hin. apply elem_of_app in Hin as [Hin|Hin].
      + by apply Hone.
      + by apply schedule_run_not_in in Hin.
    - apply Hone.
      destruct (r_schedule_run env _ _ _ _ _ _) as [x|e].
      + rewrite call_Reply in Hc. by injection Hc as _ <-.
      + rewrite call_Fails in Hc. by injection Hc as _ <-. }
  split; [done|]. by exists w1, w2.
Qed.

Lemma poll_run_Ret_inv fuel run_arn w state w' :
  poll_run env fuel run_arn w = (Ret state, w') →
  run_loop env fuel 0 run_arn w = (Ret state, w').
Proof.
  unfold poll_run, try_except.
  destruct (run_loop env fuel 0 run_arn w) as [[s|e|c|] w1]; try done.
  destruct (is_Exception e); [|done].
  rewrite stop_and_exit_eq. by destruct (r_stop_run env run_arn).
Qed.

(** X11. When the script returns, it has gone all the way: the status
    loop ended on COMPLETED or ERRORED (either one, with no difference
    afterwards), the jobs of that run were listed, [download_artifacts]
    returned a list for the directory named after the unique name under
    the working directory, and [path.yaml] holds the dump of exactly
    that list. Nothing before the download touched the file system. *)
Theorem script_returns_after_full_run fuel app_file_path test_package
    project_arn test_spec_arn pool_arn w w' :
  upload_and_test_android env fuel app_file_path test_package project_arn
    test_spec_arn pool_arn w = (Ret (), w') →
  ∃ run_arn state jobs lp w3 w4 w6,
    run_loop env fuel 0 run_arn w3 = (Ret state, w4) ∧
    run_terminal state ∧
    r_list_jobs env run_arn = Reply jobs ∧
    fs w4 = fs w ∧
    download_artifacts env jobs
      (posixpath.join (r_cwd env) (unique_of env))
      (logged w4 [ListJobs run_arn]) = (Ret lp, w6) ∧
    fs w' = <[txt "path.yaml" := Text (yaml_dump lp)]> (fs w6) ∧
    log w' = log w6.
Proof.
  intros Hrun. unfold upload_and_test_android in Hrun.
  cbv zeta in Hrun. cbn [namePrefix appFilePath testPackage get_config] in Hrun.
  fold (unique_of env) in Hrun.
  apply bind_Ret_inv in Hrun as (a1 & w1 & Hu1 & Hrun).
  apply bind_Ret_inv in Hrun as (a2 & w2 & Hu2 & Hrun).
  apply bind_Ret_inv in Hrun as (run_arn & w3 & Hc & Hrun).
  apply bind_Ret_inv in Hrun as (state & w4 & Hpoll & Hrun).
  apply bind_Ret_inv in Hrun as (jobs & w5 & Hjobs & Hrun).
  apply bind_Ret_inv in Hrun as (u & w5' & Hmk & Hrun).
  apply bind_Ret_inv in Hrun as (lp & w6 & Hdl & Hsave).
  apply call_Ret_inv in Hjobs as [Hjobs ->].
  assert (w5' = logged w4 [ListJobs run_arn]) as -> by (by injection Hmk).
  pose proof (keeps_fs_upload_df_file _ _ _ _ _ _ _ _ _ Hu1) as F1.
  pose proof (keeps_fs_upload_df_file _ _ _ _ _ _ _ _ _ Hu2) as F2.
  pose proof (keeps_fs_call _ _ _ _ _ Hc) as F3.
  pose proof (keeps_fs_poll_run _ _ _ _ _ Hpoll) as F4.
  apply poll_run_Ret_inv in Hpoll.
  pose proof (run_loop_Ret_inv _ _ _ _ _ _ _ Hpoll) as [Hterm _].
  exists run_arn, state, jobs, lp, w3, w4, w6.
  repeat (split; [done || congruence|]).
  unfold save_logcat_path, write_file, bind, get_fs, put_fs in Hsave.
  by injection Hsave as <-.
Qed.

(** X12. When the script ends the process, the file system is as it was
    and no artifact has been fetched: the exit comes before any job is
    listed. *)
Theorem exit_leaves_disk_untouched fuel app_file_path test_package
    project_arn test_spec_arn pool_arn w c w' :
  upload_and_test_android env fuel app_file_path test_package project_arn
    test_spec_arn pool_arn w = (Exit c, w') →
  fs w' = fs w ∧
  ∃ l, log w' = log w ++ l ∧
       Forall (λ ev, match ev with
                     | HttpGet _ _ | ListJobs _ | ListSuites _
                     | ListTests _ | ListArtifacts _ _ => False
                     | _ => True
                     end) l.
Proof.
  intros Hrun. unfold upload_and_test_android in Hrun.
  cbv zeta in Hrun. cbn [namePrefix appFilePath testPackage get_config] in Hrun.
  fold (unique_of env) in Hrun.
  match goal with |- _ ∧ ∃ l, _ ∧ Forall ?Q l => set (P := Q) end.
  assert (∀ cfg f t, emits P (upload_df_file env fuel cfg (unique_of env) f t
                                OCTET_STREAM)) as Hup
    by (intros; by apply emits_upload_df_file).
  apply bind_Exit_inv in Hrun as [Hrun|(a1 & w1 & Hu1 & Hrun)].
  { by apply no_exit_upload_df_file in Hrun. }
  apply bind_Exit_inv in Hrun as [Hrun|(a2 & w2 & Hu2 & Hrun)].
  { by apply no_exit_upload_df_file in Hrun. }
  apply bind_Exit_inv in Hrun as [Hrun|(run_arn & w3 & Hc & Hrun)].
  { by apply no_exit_call in Hrun. }
  apply bind_Exit_inv in Hrun as [Hrun|(state & w4 & _ & Hrun)].
  - pose proof (keeps_fs_upload_df_file _ _ _ _ _ _ _ _ _ Hu1) as F1.
    pose proof (keeps_fs_upload_df_file _ _ _ _ _ _ _ _ _ Hu2) as F2.
    pose proof (keeps_fs_call _ _ _ _ _ Hc) as F3.
    pose proof (keeps_fs_poll_run _ _ _ _ _ Hrun) as F4.
    split; [congruence|].
    destruct (Hup _ _ _ _ _ _ Hu1) as (l1 & El1 & Hl1).
    destruct (Hup _ _ _ _ _ _ Hu2) as (l2 & El2 & Hl2).
    apply call_Ret_inv in Hc as [_ ->].
    destruct (emits_poll_run P fuel run_arn ltac:(done) ltac:(done)
                ltac:(done) _ _ _ Hrun) as (l4 & El4 & Hl4).
    exists (l1 ++ l2 ++ [ScheduleRun (unique_of env) a1 a2] ++ l4).
    split.
    + rewrite El4. unfold logged. simpl. rewrite El2, El1.
      by rewrite <-!app_assoc.
    + repeat (apply Forall_app; split); try done. by repeat constructor.
  - exfalso.
    apply bind_Exit_inv in Hrun as [Hrun|(jobs & w5 & _ & Hrun)].
    { by apply no_exit_call in Hrun. }
    apply bind_Exit_inv in Hrun as [Hrun|(? & w6 & _ & Hrun)].
    { by apply no_exit_os_mkdir in Hrun. }
    apply bind_Exit_inv in Hrun as [Hrun|(paths & w7 & _ & Hrun)].
    { by apply no_exit_download_artifacts in Hrun. }
    by apply no_exit_save_logcat_path in Hrun.
Qed.

End Script.

(** ** The procedures on concrete services *)

Lemma upload_df_file_outcomes_witness :
  (∃ fuel w',
     upload_df_file Demo.env fuel Demo.cfg (txt "run1") (txt "build/app.apk")
       (txt "ANDROID_APP") OCTET_STREAM Demo.empty_world
     = (Ret Demo.app_upload_arn, w'))
  ∧ upload_df_file Demo.env_upload_fails 5 Demo.cfg (txt "run1")
      (txt "build/app.apk") (txt "ANDROID_APP") OCTET_STREAM Demo.empty_world
    = (Raise (upload_failure (Demo.upload_of Demo.app_upload_arn FAILED)),
       logged Demo.empty_world
         (upload_prologue (txt "run1" ++ txt "_" ++ posixpath.basename (txt "build/app.apk"))
            (txt "ANDROID_APP")
            (Demo.upload_of Demo.app_upload_arn (txt "INITIALIZED"))
            (txt "build/app.apk")
          ++ sleep_then 5 (GetUpload Demo.app_upload_arn) 2))
  ∧ upload_df_file Demo.env_put_forbidden 5 Demo.cfg (txt "run1")
      (txt "build/app.apk") (txt "ANDROID_APP") OCTET_STREAM Demo.empty_world
    = (Raise (PyException
                (txt "Couldn't upload, requests said we're not ok. Requests says: "
                   ++ txt "Forbidden")),
       logged Demo.empty_world
         (upload_prologue (txt "run1" ++ txt "_" ++ posixpath.basename (txt "build/app.apk"))
            (txt "ANDROID_APP")
            (Demo.upload_of Demo.app_upload_arn (txt "INITIALIZED"))
            (txt "build/app.apk"))).
Proof.
  assert (∀ last, pending_until
            (Demo.env_with [] [] Demo.report_ok (txt "INITIALIZED") last
               Demo.put_ok Demo.run_completes (Reply ()))
            (Demo.upload_of Demo.app_upload_arn (txt "INITIALIZED")) 0 2) as Hpend.
  { intros last [|[|i]] Hi; [| |lia].
    - exists (Demo.upload_of Demo.app_upload_arn (txt "INITIALIZED")).
      split; [reflexivity|]. split; by_compute.
    - exists (Demo.upload_of Demo.app_upload_arn (txt "PROCESSING")).
      split; [reflexivity|]. split; by_compute. }
  split; [|split].
  - destruct (upload_df_file_outcomes Demo.env Demo.cfg (txt "run1")
                (txt "build/app.apk") (txt "ANDROID_APP") OCTET_STREAM
                (Demo.upload_of Demo.app_upload_arn (txt "INITIALIZED"))
                Demo.put_ok) with (w := Demo.empty_world)
      as (_ & _ & _ & _ & Hiff).
    + vm_compute. reflexivity.
    + reflexivity.
    + apply Hiff. split; [reflexivity|]. split; [reflexivity|].
      exists 2, (Demo.upload_of Demo.app_upload_arn SUCCEEDED).
      split; [apply (Hpend SUCCEEDED)|]. split; reflexivity.
  - destruct (upload_df_file_outcomes Demo.env_upload_fails Demo.cfg
                (txt "run1") (txt "build/app.apk") (txt "ANDROID_APP")
                OCTET_STREAM
                (Demo.upload_of Demo.app_upload_arn (txt "INITIALIZED"))
                Demo.put_ok) with (w := Demo.empty_world)
      as (_ & Hfail & _).
    + vm_compute. reflexivity.
    + reflexivity.
    + apply Hfail; [reflexivity|apply (Hpend FAILED)|reflexivity|reflexivity|lia].
  - destruct (upload_df_file_outcomes Demo.env_put_forbidden Demo.cfg
                (txt "run1") (txt "build/app.apk") (txt "ANDROID_APP")
                OCTET_STREAM
                (Demo.upload_of Demo.app_upload_arn (txt "INITIALIZED"))
                Demo.put_forbidden) with (w := Demo.empty_world)
      as (Hput & _).
    + vm_compute. reflexivity.
    + reflexivity.
    + apply Hput. reflexivity.
Defined.

Lemma upload_initial_status_first_witness :
  upload_df_file Demo.env_ready 1 Demo.cfg (txt "run1") (txt "build/app.apk")
    (txt "ANDROID_APP") OCTET_STREAM Demo.empty_world
  = (Ret Demo.app_upload_arn,
     logged Demo.empty_world
       [CreateUpload (txt "run1" ++ txt "_" ++ posixpath.basename (txt "build/app.apk"))
          (txt "ANDROID_APP");
        HttpPut (up_url (Demo.upload_of Demo.app_upload_arn SUCCEEDED))
          (txt "build/app.apk")])
  ∧ upload_df_file Demo.env_rejected 1 Demo.cfg (txt "run1")
      (txt "build/app.apk") (txt "ANDROID_APP") OCTET_STREAM Demo.empty_world
    = (Raise (upload_failure (Demo.upload_of Demo.app_upload_arn FAILED)),
       logged Demo.empty_world
         [CreateUpload (txt "run1" ++ txt "_" ++ posixpath.basename (txt "build/app.apk"))
            (txt "ANDROID_APP");
          HttpPut (up_url (Demo.upload_of Demo.app_upload_arn FAILED))
            (txt "build/app.apk")]).
Proof.
  split.
  - destruct (upload_initial_status_first Demo.env_ready Demo.cfg (txt "run1")
                (txt "build/app.apk") (txt "ANDROID_APP") OCTET_STREAM
                (Demo.upload_of Demo.app_upload_arn SUCCEEDED) Demo.put_ok)
      with (fuel := 0) (w := Demo.empty_world) as (Hs & _).
    + vm_compute. reflexivity.
    + reflexivity.
    + apply Hs; reflexivity.
  - destruct (upload_initial_status_first Demo.env_rejected Demo.cfg
                (txt "run1") (txt "build/app.apk") (txt "ANDROID_APP")
                OCTET_STREAM
                (Demo.upload_of Demo.app_upload_arn FAILED) Demo.put_ok)
      with (fuel := 0) (w := Demo.empty_world) as (_ & Hf & _).
    + vm_compute. reflexivity.
    + reflexivity.
    + apply Hf; reflexivity.
Defined.

Lemma run_loop_termination_witness :
  run_loop Demo.env 3 0 Demo.run_arn Demo.empty_world
  = (Ret COMPLETED,
     logged Demo.empty_world
       (then_sleep 10 (GetRun Demo.run_arn) 2 ++ [GetRun Demo.run_arn]))
  ∧ (∀ fuel,
       run_loop Demo.env_forever fuel 0 Demo.run_arn Demo.empty_world
       = (Spin,
          logged Demo.empty_world (then_sleep 10 (GetRun Demo.run_arn) fuel))
       ∧ length (List.filter is_get_run
                   (then_sleep 10 (GetRun Demo.run_arn) fuel)) = fuel).
Proof.
  split.
  - apply (proj1 (run_loop_termination Demo.env Demo.run_arn Demo.empty_world)).
    + intros [|[|i]] Hi; [| |lia]; exists (txt "RUNNING");
        (split; [reflexivity|]); intros [E|E]; revert E; by_compute.
    + reflexivity.
    + by left.
    + lia.
  - apply (proj2 (proj2 (run_loop_termination Demo.env_forever Demo.run_arn
                           Demo.empty_world))).
    intros k i Hi. exists (txt "RUNNING"). split; [reflexivity|].
    intros [E|E]; revert E; by_compute.
Defined.


(** When the stop request raises too, [exit(1)] is not reached: the
    exception of the stop request leaves the script. *)
Example failed_stop_request_propagates :
  (@upload_and_test_android Demo.runtime Demo.env_breaks_twice 5
     (txt "app.apk") (txt "tests.zip") (txt "arn:project") (txt "arn:spec")
     (txt "arn:pool") Demo.empty_world).1
  = Raise (ClientError (txt "AccessDeniedException")).
Proof. vm_compute. reflexivity. Qed.



Lemma logcat_paths_recorded_witness :
  [Demo.logcat_path]
    `sublist_of` encountered_logcats Demo.env [Demo.job1] Demo.save_path
  ∧ Forall (λ p, endswith p DOT_LOGCAT = true ∧ endswith p DOT_ZIP = false)
      [Demo.logcat_path].
Proof.
  destruct (@logcat_paths_recorded Demo.runtime Demo.env [Demo.job1]
              Demo.save_path Demo.empty_world [Demo.logcat_path]
              (@download_artifacts Demo.runtime Demo.env [Demo.job1]
                 Demo.save_path Demo.empty_world).2)
    as (_ & Hsub & Hends & _).
  { apply run_eq_of_result. vm_compute. reflexivity. }
  by split.
Defined.



(** ** Further examples *)

Lemma unzip_and_copy_unusable_archive_witness :
  @unzip_and_copy Demo.runtime Demo.zip_path Demo.plain_world
  = (Raise (FileNotFoundError (origin_path Demo.zip_path)),
     World (extracted (posixpath.dirname Demo.zip_path)
              [ (txt "Host_Machine_Files/$DEVICEFARM_LOG_DIR/notes.txt", txt "n") ]
              (fs Demo.plain_world))
       (log Demo.plain_world))
  ∧ @unzip_and_copy Demo.runtime Demo.zip_path Demo.empty_world
    = (Raise (FileNotFoundError Demo.zip_path), Demo.empty_world).
Proof.
  split.
  - apply (proj2 (proj2 (@unzip_and_copy_unusable_archive Demo.runtime
                           Demo.zip_path Demo.plain_world))).
    + vm_compute. reflexivity.
    + vm_compute. reflexivity.
    + intros m ->%list_elem_of_singleton. by_compute.
  - apply (proj1 (@unzip_and_copy_unusable_archive Demo.runtime
                    Demo.zip_path Demo.empty_world)).
    vm_compute. reflexivity.
Defined.


Lemma unzip_and_copy_bad_label_witness :
  (@unzip_and_copy Demo.runtime Demo.bad_zip_path Demo.bad_world
   = (Raise ReError, (relocate_report Demo.bad_zip_path Demo.bad_world).2)
   ∧ @template_failure Demo.runtime ReError
   ∧ fs (relocate_report Demo.bad_zip_path Demo.bad_world).2
       !! result_path Demo.bad_zip_path = Some (Text Demo.report_ok)
   ∧ fs (relocate_report Demo.bad_zip_path Demo.bad_world).2
       !! rename_path Demo.bad_zip_path = Some (Text Demo.report_ok))
  ∧ (@unzip_and_copy Demo.runtime Demo.named_zip_path Demo.named_world
     = (Raise (IndexError (txt "slot")),
        (relocate_report Demo.named_zip_path Demo.named_world).2)
     ∧ @template_failure Demo.runtime (IndexError (txt "slot"))
     ∧ fs (relocate_report Demo.named_zip_path Demo.named_world).2
         !! result_path Demo.named_zip_path = Some (Text Demo.report_ok)
     ∧ fs (relocate_report Demo.named_zip_path Demo.named_world).2
         !! rename_path Demo.named_zip_path = Some (Text Demo.report_ok)).
Proof.
  split.
  - apply (@unzip_and_copy_bad_label Demo.runtime Demo.bad_zip_path
             Demo.bad_world (result_path Demo.bad_zip_path)).
    + apply run_eq_of_result. vm_compute. reflexivity.
    + vm_compute. reflexivity.
    + vm_compute. reflexivity.
  - apply (@unzip_and_copy_bad_label Demo.runtime Demo.named_zip_path
             Demo.named_world (result_path Demo.named_zip_path)).
    + apply run_eq_of_result. vm_compute. reflexivity.
    + vm_compute. reflexivity.
    + vm_compute. reflexivity.
Defined.

Lemma demo_pending_two env first :
  observed_upload env first 0 = Reply first →
  up_status first = txt "INITIALIZED" →
  (∃ u, observed_upload env first 1 = Reply u
        ∧ up_status u = txt "PROCESSING") →
  pending_until env first 0 2.
Proof.
  intros H0 Hs (u & H1 & Hu) [|[|i]] Hi; [| |lia].
  - exists first. split; [done|]. unfold upload_pending. rewrite Hs.
    split; by_compute.
  - exists u. split; [done|]. unfold upload_pending. rewrite Hu.
    split; by_compute.
Qed.

Lemma upload_df_file_trace_witness :
  upload_df_file Demo.env 5 Demo.cfg (txt "run1") (txt "build/app.apk")
    (txt "ANDROID_APP") OCTET_STREAM Demo.empty_world
  = (Ret Demo.app_upload_arn,
     logged Demo.empty_world
       ([CreateUpload (txt "run1" ++ txt "_" ++ posixpath.basename (txt "build/app.apk"))
           (txt "ANDROID_APP");
         HttpPut (up_url (Demo.upload_of Demo.app_upload_arn (txt "INITIALIZED")))
           (txt "build/app.apk")]
        ++ sleep_then 5 (GetUpload Demo.app_upload_arn) 2)).
Proof.
  apply (upload_df_file_trace Demo.env Demo.cfg (txt "run1")
           (txt "build/app.apk") (txt "ANDROID_APP") OCTET_STREAM
           (Demo.upload_of Demo.app_upload_arn (txt "INITIALIZED"))
           Demo.put_ok 2 (Demo.upload_of Demo.app_upload_arn SUCCEEDED)).
  - vm_compute. reflexivity.
  - reflexivity.
  - reflexivity.
  - apply demo_pending_two; [reflexivity|reflexivity|].
    exists (Demo.upload_of Demo.app_upload_arn (txt "PROCESSING")). by split.
  - reflexivity.
  - reflexivity.
  - lia.
Defined.

Lemma upload_df_file_request_fails_witness :
  upload_df_file Demo.env_create_fails 5 Demo.cfg (txt "run1")
    (txt "build/app.apk") (txt "ANDROID_APP") OCTET_STREAM Demo.empty_world
  = (Raise Demo.throttled,
     logged Demo.empty_world
       [CreateUpload (txt "run1" ++ txt "_" ++ posixpath.basename (txt "build/app.apk"))
          (txt "ANDROID_APP")])
  ∧ upload_df_file Demo.env_transfer_fails 5 Demo.cfg (txt "run1")
      (txt "build/app.apk") (txt "ANDROID_APP") OCTET_STREAM Demo.empty_world
    = (Raise Demo.timed_out,
       logged Demo.empty_world
         [CreateUpload (txt "run1" ++ txt "_" ++ posixpath.basename (txt "build/app.apk"))
            (txt "ANDROID_APP");
          HttpPut (up_url (Demo.upload_of Demo.app_upload_arn (txt "INITIALIZED")))
            (txt "build/app.apk")])
  ∧ upload_df_file Demo.env_query_fails 5 Demo.cfg (txt "run1")
      (txt "build/app.apk") (txt "ANDROID_APP") OCTET_STREAM Demo.empty_world
    = (Raise Demo.throttled,
       logged Demo.empty_world
         ([CreateUpload (txt "run1" ++ txt "_" ++ posixpath.basename (txt "build/app.apk"))
             (txt "ANDROID_APP");
           HttpPut (up_url (Demo.upload_of Demo.app_upload_arn (txt "INITIALIZED")))
             (txt "build/app.apk")]
          ++ sleep_then 5 (GetUpload Demo.app_upload_arn) 2)).
Proof.
  split; [|split].
  - apply (proj1 (upload_df_file_request_fails Demo.env_create_fails Demo.cfg
                    (txt "run1") (txt "build/app.apk") (txt "ANDROID_APP")
                    OCTET_STREAM 5 Demo.empty_world)).
    reflexivity.
  - apply (proj1 (proj2 (upload_df_file_request_fails Demo.env_transfer_fails
                           Demo.cfg (txt "run1") (txt "build/app.apk")
                           (txt "ANDROID_APP") OCTET_STREAM 5
                           Demo.empty_world))
             (Demo.upload_of Demo.app_upload_arn (txt "INITIALIZED"))).
    + vm_compute. reflexivity.
    + reflexivity.
  - apply (proj2 (proj2 (upload_df_file_request_fails Demo.env_query_fails
                           Demo.cfg (txt "run1") (txt "build/app.apk")
                           (txt "ANDROID_APP") OCTET_STREAM 5
                           Demo.empty_world))
             (Demo.upload_of Demo.app_upload_arn (txt "INITIALIZED"))
             Demo.put_ok 1).
    + vm_compute. reflexivity.
    + reflexivity.
    + reflexivity.
    + apply demo_pending_two; [reflexivity|reflexivity|].
      exists (Demo.upload_of Demo.app_upload_arn (txt "PROCESSING")). by split.
    + reflexivity.
    + lia.
Defined.

Lemma recorded_paths_are_on_disk_witness :
  Forall (λ p, is_Some
                 (fs (@download_artifacts Demo.runtime Demo.env [Demo.job1]
                        Demo.save_path Demo.empty_world).2 !! p))
    [Demo.logcat_path].
Proof.
  apply (@recorded_paths_are_on_disk Demo.runtime Demo.env [Demo.job1]
           Demo.save_path Demo.empty_world).
  apply run_eq_of_result. vm_compute. reflexivity.
Defined.

Lemma failed_download_leaves_empty_file_witness :
  foldM (@process_artifact Demo.runtime Demo.env_get_fails Demo.path_to)
    ([], true) ([Demo.video_artifact] ++ Demo.logcat_artifact :: [])
    Demo.empty_world
  = (Raise Demo.timed_out,
     World (<[save_path_of Demo.path_to Demo.logcat_artifact := Text []]>
              (fs Demo.empty_world))
       (log Demo.empty_world
          ++ [HttpGet (a_url Demo.logcat_artifact)
                (save_path_of Demo.path_to Demo.logcat_artifact)])).
Proof.
  apply (@failed_download_leaves_empty_file Demo.runtime Demo.env_get_fails).
  - intros x ->%list_elem_of_singleton. vm_compute. reflexivity.
  - vm_compute. reflexivity.
  - reflexivity.
Defined.

Lemma download_artifacts_without_tests_suite_witness :
  @download_artifacts Demo.runtime Demo.env_no_tests_suite [Demo.job1]
    Demo.save_path Demo.empty_world
  = (Ret [],
     logged Demo.empty_world (map (λ j, ListSuites (j_arn j)) [Demo.job1])).
Proof.
  apply (@download_artifacts_without_tests_suite Demo.runtime
           Demo.env_no_tests_suite).
  intros j ->%list_elem_of_singleton. eexists. split; [reflexivity|].
  intros s Hs. apply list_elem_of_In in Hs.
  destruct Hs as [<-|[<-|[]]]; by_compute.
Defined.

Lemma run_scheduled_after_uploads_witness :
  unique_of Demo.env = unique_of Demo.env ∧
  ∃ w1 w2,
    upload_df_file Demo.env 5
      (get_config (txt "app.apk") (txt "tests.zip") (txt "arn:project")
         (txt "arn:spec") (txt "arn:pool"))
      (unique_of Demo.env) (txt "app.apk") (txt "ANDROID_APP") OCTET_STREAM
      Demo.empty_world
    = (Ret (txt "arn:upload:" ++ unique_of Demo.env ++ txt "_app.apk"), w1) ∧
    upload_df_file Demo.env 5
      (get_config (txt "app.apk") (txt "tests.zip") (txt "arn:project")
         (txt "arn:spec") (txt "arn:pool"))
      (unique_of Demo.env) (txt "tests.zip")
      (txt "APPIUM_PYTHON_TEST_PACKAGE") OCTET_STREAM w1
    = (Ret (txt "arn:upload:" ++ unique_of Demo.env ++ txt "_tests.zip"), w2).
Proof.
  apply (@run_scheduled_after_uploads Demo.runtime Demo.env 5 (txt "app.apk")
           (txt "tests.zip") (txt "arn:project") (txt "arn:spec")
           (txt "arn:pool") Demo.empty_world (Ret ())
           (Demo.script Demo.env Demo.empty_world).2).
  - apply run_eq_of_result. vm_compute. reflexivity.
  - apply Forall_nil_2.
  - apply (list_elem_of_lookup_2 _ 12). vm_compute. reflexivity.
Defined.

Lemma script_returns_after_full_run_witness :
  ∃ run_arn state jobs lp w3 w4 w6,
    run_loop Demo.env 5 0 run_arn w3 = (Ret state, w4) ∧
    run_terminal state ∧
    r_list_jobs Demo.env run_arn = Reply jobs ∧
    fs w4 = fs Demo.empty_world ∧
    @download_artifacts Demo.runtime Demo.env jobs
      (posixpath.join (r_cwd Demo.env) (unique_of Demo.env))
      (logged w4 [ListJobs run_arn]) = (Ret lp, w6) ∧
    fs (Demo.script Demo.env Demo.empty_world).2
    = <[txt "path.yaml" := Text (@yaml_dump Demo.runtime lp)]> (fs w6) ∧
    log (Demo.script Demo.env Demo.empty_world).2 = log w6.
Proof.
  apply (@script_returns_after_full_run Demo.runtime Demo.env 5
           (txt "app.apk") (txt "tests.zip") (txt "arn:project")
           (txt "arn:spec") (txt "arn:pool") Demo.empty_world).
  apply run_eq_of_result. vm_compute. reflexivity.
Defined.

Lemma exit_leaves_disk_untouched_witness :
  fs (@upload_and_test_android Demo.runtime Demo.env_breaks 5
        (txt "app.apk") (txt "tests.zip") (txt "arn:project")
        (txt "arn:spec") (txt "arn:pool") Demo.empty_world).2
  = fs Demo.empty_world ∧
  ∃ l, log (@upload_and_test_android Demo.runtime Demo.env_breaks 5
              (txt "app.apk") (txt "tests.zip") (txt "arn:project")
              (txt "arn:spec") (txt "arn:pool") Demo.empty_world).2
       = log Demo.empty_world ++ l ∧
       Forall (λ ev, match ev with
                     | HttpGet _ _ | ListJobs _ | ListSuites _
                     | ListTests _ | ListArtifacts _ _ => False
                     | _ => True
                     end) l.
Proof.
  apply (@exit_leaves_disk_untouched Demo.runtime Demo.env_breaks 5
           (txt "app.apk") (txt "tests.zip") (txt "arn:project")
           (txt "arn:spec") (txt "arn:pool") Demo.empty_world 1).
  apply run_eq_of_result. vm_compute. reflexivity.
Defined.
